(** * promised-sqlite3: a shallow embedding of the promise wrappers

    The repository wraps the callback API of [sqlite3.Database] into promises.
    Three wrappers are present in the sources:

    - [AsyncDatabase] (src/index.ts), built around an already constructed
      connection;
    - [PromisedDatabase] (the deferred-open wrapper with the SQL shortcut
      methods [insert], [replace], [insertMany]);
    - an older [PromisedDatabase] whose [each] is variadic
      ([LegacyPromisedDatabase] below).

    The embedding has four layers: JavaScript values and the few runtime
    operations the wrappers rely on ([Js]), promises ([Promise]), the
    callback interface of the engine together with the user's functions
    ([Host]), and the wrappers themselves.  The theorems follow the
    definitions. *)

From Stdlib Require Import ZArith List String Ascii Bool Lia DecimalString.
Import ListNotations.
Open Scope string_scope.

(* ================================================================== *)
(** * JavaScript values *)
(* ================================================================== *)

Module Js.

Inductive error_kind := Error | TypeError.

(** Values that travel through the wrappers.  Numbers are the integers
    (printed in decimal, as JavaScript prints integers of ordinary size);
    an object is the list of its own enumerable properties in the order
    [Object.keys] enumerates them; a [Map] is its entries in insertion
    order; a function is an identifier, whose behaviour the host gives, with
    the source text [Function.prototype.toString] returns.  Objects are
    modelled by their contents: the embedding has no object identity. *)
#[local] Unset Elimination Schemes.
Inductive value :=
| VUndefined
| VNull
| VBool (b : bool)
| VNum (n : Z)
| VStr (s : string)
| VArr (items : list value)
| VObj (props : list (string * value))
| VMap (entries : list (value * value))
| VFun (f : nat) (src : string)
| VErr (kind : error_kind) (message : string).
#[local] Set Elimination Schemes.

(** A statement either completes with a value or throws one. *)
Inductive completion (A : Type) :=
| Normal (a : A)
| Throw (e : value).
Arguments Normal {A} a.
Arguments Throw {A} e.

Definition bind {A B} (c : completion A) (k : A -> completion B) : completion B :=
  match c with
  | Normal a => k a
  | Throw e => Throw e
  end.

Notation "x <- c ;; k" := (bind c (fun x => k))
  (at level 61, c at next level, right associativity).

(** [Array.prototype.map] with a callback that may throw: the first
    exception aborts the traversal. *)
Fixpoint mapM {A B} (f : A -> completion B) (l : list A) : completion (list B) :=
  match l with
  | [] => Normal []
  | a :: r => b <- f a ;; bs <- mapM f r ;; Normal (b :: bs)
  end.

(** [ToBoolean], as used by [if (err)] and [!this._db]. *)
Definition truthy (v : value) : bool :=
  match v with
  | VUndefined | VNull => false
  | VBool b => b
  | VNum n => negb (n =? 0)%Z
  | VStr s => negb (String.eqb s EmptyString)
  | _ => true
  end.

(** [o == undefined]: loose equality holds for [undefined] and [null] only. *)
Definition loose_eq_undefined (v : value) : bool :=
  match v with
  | VUndefined | VNull => true
  | _ => false
  end.

Definition is_string (v : value) : bool :=
  match v with VStr _ => true | _ => false end.

(** [v instanceof Function] *)
Definition instanceof_Function (v : value) : bool :=
  match v with VFun _ _ => true | _ => false end.

Definition string_of_Z (n : Z) : string := NilZero.string_of_int (Z.to_int n).
Definition string_of_nat (n : nat) : string := NilZero.string_of_uint (Nat.to_uint n).

Definition error_name (k : error_kind) : string :=
  match k with Error => "Error" | TypeError => "TypeError" end.

(** [Array.prototype.join] prints [undefined] and [null] elements as the
    empty string and every other element with [ToString]. *)
Definition join_elem (to_s : value -> string) (v : value) : string :=
  match v with
  | VUndefined | VNull => EmptyString
  | _ => to_s v
  end.

(** [ToString], which template literals and [join] apply.  An array prints
    as its elements joined by commas. *)
Fixpoint to_string (v : value) : string :=
  match v with
  | VUndefined => "undefined"
  | VNull => "null"
  | VBool true => "true"
  | VBool false => "false"
  | VNum n => string_of_Z n
  | VStr s => s
  | VArr items => String.concat "," (map (join_elem to_string) items)
  | VObj _ => "[object Object]"
  | VMap _ => "[object Map]"
  | VFun _ src => src
  | VErr k m =>
      if String.eqb m EmptyString then error_name k
      else error_name k ++ ": " ++ m
  end.

(** [items.join(sep)] *)
Definition join (sep : string) (items : list value) : string :=
  String.concat sep (map (join_elem to_string) items).

(** Structural equality, standing for [SameValueZero] on [Map] keys. *)
Definition error_kind_eqb (a b : error_kind) : bool :=
  match a, b with
  | Error, Error | TypeError, TypeError => true
  | _, _ => false
  end.

Fixpoint value_eqb (a b : value) {struct a} : bool :=
  match a, b with
  | VUndefined, VUndefined => true
  | VNull, VNull => true
  | VBool x, VBool y => Bool.eqb x y
  | VNum x, VNum y => (x =? y)%Z
  | VStr x, VStr y => String.eqb x y
  | VArr xs, VArr ys =>
      (fix go (l1 l2 : list value) {struct l1} : bool :=
         match l1, l2 with
         | [], [] => true
         | x :: r1, y :: r2 => value_eqb x y && go r1 r2
         | _, _ => false
         end) xs ys
  | VObj xs, VObj ys =>
      (fix go (l1 l2 : list (string * value)) {struct l1} : bool :=
         match l1, l2 with
         | [], [] => true
         | (k1, x) :: r1, (k2, y) :: r2 =>
             String.eqb k1 k2 && value_eqb x y && go r1 r2
         | _, _ => false
         end) xs ys
  | VMap xs, VMap ys =>
      (fix go (l1 l2 : list (value * value)) {struct l1} : bool :=
         match l1, l2 with
         | [], [] => true
         | (k1, x) :: r1, (k2, y) :: r2 =>
             value_eqb k1 k2 && value_eqb x y && go r1 r2
         | _, _ => false
         end) xs ys
  | VFun f s, VFun g t => Nat.eqb f g && String.eqb s t
  | VErr k m, VErr k' m' => error_kind_eqb k k' && String.eqb m m'
  | _, _ => false
  end.

(** ** Property access *)

(** What a value has beyond its own enumerable properties: non-enumerable
    own properties ([length]) and whatever its prototype chain provides
    ([constructor], [toString]); [undefined] where there is nothing.  The
    language runtime fixes this table. *)
Class Runtime := { builtin_prop : value -> string -> value }.

Fixpoint indexed {A} (i : nat) (l : list A) : list (string * A) :=
  match l with
  | [] => []
  | a :: r => (string_of_nat i, a) :: indexed (S i) r
  end.

Definition chars (s : string) : list value :=
  map (fun c => VStr (String c EmptyString)) (list_ascii_of_string s).

(** Own enumerable string-keyed properties, in [Object.keys] order. *)
Definition own_props (v : value) : list (string * value) :=
  match v with
  | VObj props => props
  | VArr items => indexed 0 items
  | VStr s => indexed 0 (chars s)
  | _ => []
  end.

Fixpoint assoc (k : string) (l : list (string * value)) : option value :=
  match l with
  | [] => None
  | (k', v) :: r => if String.eqb k' k then Some v else assoc k r
  end.

(** [Object.keys(o)] *)
Definition object_keys (o : value) : completion (list value) :=
  match o with
  | VUndefined | VNull =>
      Throw (VErr TypeError "Cannot convert undefined or null to object")
  | _ => Normal (map (fun kv => VStr (fst kv)) (own_props o))
  end.

(** [o[k]] *)
Definition get {R : Runtime} (o k : value) : completion value :=
  match o with
  | VUndefined | VNull =>
      Throw (VErr TypeError
               ("Cannot read properties of " ++ to_string o
                ++ " (reading '" ++ to_string k ++ "')"))
  | _ =>
      Normal (match assoc (to_string k) (own_props o) with
              | Some v => v
              | None => builtin_prop o (to_string k)
              end)
  end.

(** [Array.from(m.keys())] and [m.get(k)] on the entries of a [Map]. *)
Definition map_keys (entries : list (value * value)) : list value :=
  map fst entries.

Fixpoint map_get (entries : list (value * value)) (k : value) : value :=
  match entries with
  | [] => VUndefined
  | (k', v) :: r => if value_eqb k' k then v else map_get r k
  end.

(** The value is a [TypeError], whatever its message. *)
Definition is_TypeError (e : value) : Prop := exists m, e = VErr TypeError m.

(** [params.pop()]: the last element ([undefined] on an empty array) and
    the array that remains. *)
Definition pop (l : list value) : value * list value :=
  (last l VUndefined, removelast l).

End Js.

(* ================================================================== *)
(** * Promises *)
(* ================================================================== *)

Module Promise.
Import Js.

Inductive promise (A : Type) :=
| Pending
| Fulfilled (a : A)
| Rejected (e : value).
Arguments Pending {A}.
Arguments Fulfilled {A} a.
Arguments Rejected {A} e.

(** Only the first call of [resolve] or [reject] settles a promise. *)
Definition resolve {A} (a : A) (p : promise A) : promise A :=
  match p with
  | Pending => Fulfilled a
  | _ => p
  end.

Definition reject {A} (e : value) (p : promise A) : promise A :=
  match p with
  | Pending => Rejected e
  | _ => p
  end.

(** The body shared by the callbacks handed to the engine:
    [if (err) reject(err); else resolve(x);] *)
Definition settle {A} (err : value) (a : A) (p : promise A) : promise A :=
  if truthy err then reject err p else resolve a p.

End Promise.

(* ================================================================== *)
(** * The engine and the user's functions *)
(* ================================================================== *)

Module Host.
Import Js.

(** A [sqlite3.Database] object. *)
Definition conn := nat.

Inductive engine_call :=
| CallNew (filename : string) (mode : value)
| CallClose (c : conn)
| CallRun (c : conn) (sql : string) (p : value)
| CallGet (c : conn) (sql : string) (p : value)
| CallAll (c : conn) (sql : string) (p : value)
| CallEach (c : conn) (sql : string) (p : value)
| CallExec (c : conn) (sql : string).

(** What can be observed from outside a wrapper: the calls it issues to the
    engine and its invocations of user functions. *)
Inductive event :=
| EngineCall (c : engine_call)
| Invoke (f : nat) (arg : value).

(** Everything outside the wrappers, over a world [W] that holds the
    engine's state and the state the user's functions close over.  A call
    to the engine returns what the engine will hand to the callback(s):
    [err] for [new Database], [close] and [exec]; [(err, this)] for [run];
    [(err, row)] for [get]; [(err, rows)] for [all]; for [each] the
    arguments [(err, row)] of the successive row callbacks, then the
    [(err, count)] of the completion callback.  The engine is taken to keep
    its contract: a completion callback fires once, and that of [each] after
    the row callbacks. *)
Class Host (W : Type) := {
  db_new : string -> value -> W -> W * (conn * value);
  db_close : conn -> W -> W * value;
  db_run : conn -> string -> value -> W -> W * (value * value);
  db_get : conn -> string -> value -> W -> W * (value * value);
  db_all : conn -> string -> value -> W -> W * (value * value);
  db_each : conn -> string -> value -> W
            -> W * (list (value * value) * (value * value));
  db_exec : conn -> string -> W -> W * value;
  call_fn : nat -> value -> W -> W * completion value
}.

Record state (W : Type) := { world : W; trace : list event }.
Arguments world {W} s.
Arguments trace {W} s.

Section Effects.
Context {W : Type} {H : Host W}.

(** The engine has been called: the world moves on and the call is
    recorded. *)
Definition issue (c : engine_call) (w : W) (s : state W) : state W :=
  {| world := w; trace := trace s ++ [EngineCall c] |}.

(** [cb(arg)] *)
Definition call (cb arg : value) (s : state W) : state W * completion value :=
  match cb with
  | VFun f _ =>
      let '(w, r) := call_fn f arg (world s) in
      ({| world := w; trace := trace s ++ [Invoke f arg] |}, r)
  | _ => (s, Throw (VErr TypeError "cb is not a function"))
  end.
End Effects.

End Host.

(* ================================================================== *)
(** * Code shared by the three wrappers *)
(* ================================================================== *)

Module Common.
Import Js Promise Host.

(** [params.length === 1 ? params[0] : params], written out in every
    [run], [get] and [all]. *)
Definition unwrap_params (params : list value) : value :=
  if Nat.eqb (List.length params) 1 then nth 0 params VUndefined else VArr params.

(** The rows among the row events of an [each] that the engine delivers
    without an error. *)
Definition delivered (rows : list (value * value)) : list value :=
  map snd (filter (fun r => negb (truthy (fst r))) rows).

Section Each.
Context {W : Type} {H : Host W}.

(** The row callback every [each] hands to the engine:
    [if (err) reject(err); else { try { cb(row); } catch (e) { reject(e); } }] *)
Definition each_row (cb : value) (sp : state W * promise value)
           (r : value * value) : state W * promise value :=
  let '(s, p) := sp in
  let '(err, row) := r in
  if truthy err then (s, reject err p)
  else match call cb row s with
       | (s', Normal _) => (s', p)
       | (s', Throw e) => (s', reject e p)
       end.

(** The engine runs the row callback on each row event in turn. *)
Definition deliver_rows (cb : value) (rows : list (value * value))
           (sp : state W * promise value) : state W * promise value :=
  fold_left (each_row cb) rows sp.

(** [this._db.each(sql, p, rowCallback, completeCallback)] on connection
    [c], for a promise that is in state [p0] when the call is issued. *)
Definition engine_each (c : conn) (sql : string) (p : value) (cb : value)
           (p0 : promise value) (s : state W) : state W * promise value :=
  let '(w, (rows, (cerr, count))) := db_each c sql p (world s) in
  let '(s', p') := deliver_rows cb rows (issue (CallEach c sql p) w s, p0) in
  (s', settle cerr count p').
End Each.
End Common.

(* ================================================================== *)
(** * AsyncDatabase (src/index.ts) *)
(* ================================================================== *)

Module AsyncDatabase.
Import Js Promise Host Common.

(** [constructor(private db: sqlite3.Database)] *)
Record t := { db : conn }.

Definition inner (h : t) : conn := db h.

Section Methods.
Context {W : Type} {H : Host W}.

Definition open (filename : string) (mode : value) (s : state W)
  : state W * promise t :=
  let '(w, (c, err)) := db_new filename mode (world s) in
  (issue (CallNew filename mode) w s, settle err {| db := c |} Pending).

Definition close (h : t) (s : state W) : state W * promise value :=
  let '(w, err) := db_close (db h) (world s) in
  (issue (CallClose (db h)) w s, settle err VUndefined Pending).

Definition run (h : t) (sql : string) (params : list value) (s : state W)
  : state W * promise value :=
  let p := unwrap_params params in
  let '(w, (err, this)) := db_run (db h) sql p (world s) in
  (issue (CallRun (db h) sql p) w s, settle err this Pending).

Definition get (h : t) (sql : string) (params : list value) (s : state W)
  : state W * promise value :=
  let p := unwrap_params params in
  let '(w, (err, row)) := db_get (db h) sql p (world s) in
  (issue (CallGet (db h) sql p) w s, settle err row Pending).

Definition all (h : t) (sql : string) (params : list value) (s : state W)
  : state W * promise value :=
  let p := unwrap_params params in
  let '(w, (err, rows)) := db_all (db h) sql p (world s) in
  (issue (CallAll (db h) sql p) w s, settle err rows Pending).

Definition each (h : t) (sql : string) (params : value) (callback : value)
           (s : state W) : state W * promise value :=
  engine_each (db h) sql params callback Pending s.

Definition exec (h : t) (sql : string) (s : state W)
  : state W * promise value :=
  let '(w, err) := db_exec (db h) sql (world s) in
  (issue (CallExec (db h) sql) w s, settle err VUndefined Pending).
End Methods.
End AsyncDatabase.

(* ================================================================== *)
(** * PromisedDatabase, the deferred-open wrapper *)
(* ================================================================== *)

Module PromisedDatabase.
Import Js Promise Host Common.

(** [private _db: sqlite3.Database | undefined] *)
Record t := { _db : option conn }.

(** [constructor() { }] *)
Definition new : t := {| _db := None |}.

(** Flags of the engine, [sqlite3.OPEN_READWRITE] and [sqlite3.OPEN_CREATE]. *)
Definition OPEN_READWRITE : Z := 2.
Definition OPEN_CREATE : Z := 4.

(** [function error_dbNotOpened() { return new Error("The database is not open."); }] *)
Definition error_dbNotOpened : value := VErr Error "The database is not open.".

Section Methods.
Context {W : Type} {H : Host W}.

(** The executor of [open]: the connection object is constructed and
    stored in [_db]; the promise is still pending, and the engine will
    pass [err] to the callback. *)
Definition open_executor (filename : string) (mode : option Z) (s : state W)
  : t * state W * value :=
  let m := VNum (match mode with
                 | Some m => m
                 | None => Z.lor OPEN_CREATE OPEN_READWRITE
                 end) in
  let '(w, (c, err)) := db_new filename m (world s) in
  ({| _db := Some c |}, issue (CallNew filename m) w s, err).

Definition open (h : t) (filename : string) (mode : option Z) (s : state W)
  : t * state W * promise value :=
  let '(h', s', err) := open_executor filename mode s in
  (h', s', settle err VUndefined Pending).

Definition close (h : t) (s : state W) : state W * promise value :=
  match _db h with
  | None => (s, resolve VUndefined Pending)
  | Some c =>
      let '(w, err) := db_close c (world s) in
      (issue (CallClose c) w s, settle err VUndefined Pending)
  end.

Definition run (h : t) (sql : string) (params : list value) (s : state W)
  : state W * promise value :=
  match _db h with
  | None => (s, reject error_dbNotOpened Pending)
  | Some c =>
      let p := unwrap_params params in
      let '(w, (err, this)) := db_run c sql p (world s) in
      (issue (CallRun c sql p) w s, settle err this Pending)
  end.

Definition get (h : t) (sql : string) (params : list value) (s : state W)
  : state W * promise value :=
  match _db h with
  | None => (s, reject error_dbNotOpened Pending)
  | Some c =>
      let p := unwrap_params params in
      let '(w, (err, row)) := db_get c sql p (world s) in
      (issue (CallGet c sql p) w s, settle err row Pending)
  end.

Definition all (h : t) (sql : string) (params : list value) (s : state W)
  : state W * promise value :=
  match _db h with
  | None => (s, reject error_dbNotOpened Pending)
  | Some c =>
      let p := unwrap_params params in
      let '(w, (e, rows)) := db_all c sql p (world s) in
      (issue (CallAll c sql p) w s, settle e rows Pending)
  end.

(** The [TypeError] branch has no [return] and no [else]: execution goes
    on to the test of [_db]. *)
Definition each (h : t) (sql : string) (params : value) (cb : value)
           (s : state W) : state W * promise value :=
  let p0 := if instanceof_Function cb then Pending
            else reject (VErr TypeError "cb must be a Function.") Pending in
  match _db h with
  | None => (s, reject error_dbNotOpened p0)
  | Some c => engine_each c sql params cb p0 s
  end.

Definition exec (h : t) (sql : string) (s : state W)
  : state W * promise value :=
  match _db h with
  | None => (s, reject error_dbNotOpened Pending)
  | Some c =>
      let '(w, err) := db_exec c sql (world s) in
      (issue (CallExec c sql) w s, settle err VUndefined Pending)
  end.
End Methods.

(** ** Helpers of the shortcut methods *)

Definition dquote : string := String (ascii_of_nat 34) EmptyString.

Definition sqlifyValue (o : value) : value :=
  if loose_eq_undefined o then VStr "NULL"
  else if is_string o then VStr (dquote ++ to_string o ++ dquote)
  else o.

Section Helpers.
Context {R : Runtime}.

(** Returns [{ keys, values }].  The two branches are those of
    [o instanceof Map]. *)
Definition getKeysValues (o : value) (keys : option (list value))
  : completion (list value * list value) :=
  match o with
  | VMap entries =>
      let keys := match keys with
                  | Some ks => ks
                  | None => map_keys entries
                  end in
      Normal (keys, map (map_get entries) keys)
  | _ =>
      keys <- match keys with
              | Some ks => Normal ks
              | None => object_keys o
              end ;;
      values <- mapM (Js.get o) keys ;;
      Normal (keys, values)
  end.

(** The first branch is that of [Array.isArray(row)]. *)
Definition sqlInsertParseObject (row : value) : completion string :=
  match row with
  | VArr items =>
      Normal (EmptyString ++ " VALUES (" ++ join "," (map sqlifyValue items) ++ ")")
  | _ =>
      kv <- getKeysValues row None ;;
      let colNames := "(" ++ join "," (fst kv) ++ ")" in
      Normal (colNames ++ " VALUES (" ++ join "," (map sqlifyValue (snd kv)) ++ ")")
  end.

(** One iteration of the loop of [insertMany]: the text pushed for [row]. *)
Definition insertMany_row (columnNames : option (list string)) (row : value)
  : completion string :=
  r <- match row with
       | VArr items => Normal items
       | _ =>
           kv <- getKeysValues row (option_map (map VStr) columnNames) ;;
           Normal (snd kv)
       end ;;
  Normal ("(" ++ join "," (map sqlifyValue r) ++ ")").
End Helpers.

(** ** Shortcut methods *)

Section Shortcuts.
Context {W : Type} {H : Host W} {R : Runtime}.

(** The value thrown by the [catch] blocks: [{ sql, error }]. *)
Definition sql_error (sql : string) (error : value) : value :=
  VObj [("sql", VStr sql); ("error", error)].

(** [try { return await this.run(sql); } catch (error) { throw { sql, error }; }] *)
Definition try_run (h : t) (sql : string) (s : state W)
  : state W * promise value :=
  match run h sql [] s with
  | (s', Rejected error) => (s', Rejected (sql_error sql error))
  | r => r
  end.

(** [const sql = `INSERT INTO ${tableName} ${sqlInsertParseObject(row)}`;] *)
Definition insert_sql (tableName : string) (row : value) : completion string :=
  frag <- sqlInsertParseObject row ;;
  Normal ("INSERT INTO " ++ tableName ++ " " ++ frag).

Definition replace_sql (tableName : string) (row : value) : completion string :=
  frag <- sqlInsertParseObject row ;;
  Normal ("REPLACE INTO " ++ tableName ++ " " ++ frag).

(** The statements of [insertMany] up to its [const sql = ...]. *)
Definition insertMany_sql (tableName : string)
           (columnNames : option (list string)) (rows : list value)
  : completion string :=
  let '(colNames, columnNames) :=
    match columnNames with
    | Some (c :: cs) => ("(" ++ join "," (map VStr (c :: cs)) ++ ")", Some (c :: cs))
    | _ => (EmptyString, None)
    end in
  values <- mapM (insertMany_row columnNames) rows ;;
  Normal ("INSERT INTO " ++ tableName ++ " " ++ colNames
          ++ " VALUES " ++ String.concat "," values).

(** The body of an [async] method, once its statement is built: an
    exception thrown while building it rejects the promise the method
    returns. *)
Definition run_built (h : t) (sql : completion string) (s : state W)
  : state W * promise value :=
  match sql with
  | Throw e => (s, Rejected e)
  | Normal sql => try_run h sql s
  end.

Definition insert (h : t) (tableName : string) (row : value) (s : state W)
  : state W * promise value :=
  run_built h (insert_sql tableName row) s.

Definition replace (h : t) (tableName : string) (row : value) (s : state W)
  : state W * promise value :=
  run_built h (replace_sql tableName row) s.

Definition insertMany (h : t) (tableName : string)
           (columnNames : option (list string)) (rows : list value)
           (s : state W) : state W * promise value :=
  run_built h (insertMany_sql tableName columnNames rows) s.

(** [createTable(tableName, ifNotExists, ...cols)] and
    [dropTable(tableName, ifExists = false)]: [return await this.run(...)],
    with no [catch].  The older wrapper has the same two methods, word for
    word. *)
Definition createTable (h : t) (tableName : string) (ifNotExists : bool)
           (cols : list string) (s : state W) : state W * promise value :=
  let ifNotExistsClause := if ifNotExists then "IF NOT EXISTS" else EmptyString in
  run h ("CREATE TABLE " ++ ifNotExistsClause ++ " " ++ tableName
         ++ " (" ++ join "," (map VStr cols) ++ ")") [] s.

Definition dropTable (h : t) (tableName : string) (ifExists : option bool)
           (s : state W) : state W * promise value :=
  let ifExists := match ifExists with Some b => b | None => false end in
  let ifExistsClause := if ifExists then "IF EXISTS" else EmptyString in
  run h ("DROP TABLE " ++ ifExistsClause ++ " " ++ tableName) [] s.
End Shortcuts.
End PromisedDatabase.

(* ================================================================== *)
(** * The older PromisedDatabase *)
(* ================================================================== *)

(** Its [open], [close], [run], [get], [all] and [exec] are, statement for
    statement, those of [PromisedDatabase]; [each] takes the callback as the
    last of its variadic arguments. *)
Module LegacyPromisedDatabase.
Import Js Promise Host Common.

Definition t := PromisedDatabase.t.
Definition error_dbNotOpened := PromisedDatabase.error_dbNotOpened.

Section Methods.
Context {W : Type} {H : Host W}.

Definition close (h : t) (s : state W) : state W * promise value :=
  match PromisedDatabase._db h with
  | None => (s, resolve VUndefined Pending)
  | Some c =>
      let '(w, err) := db_close c (world s) in
      (issue (CallClose c) w s, settle err VUndefined Pending)
  end.

Definition each (h : t) (sql : string) (params : list value) (s : state W)
  : state W * promise value :=
  let p0 := if Nat.eqb (List.length params) 0
            then reject (VErr TypeError "Missing argument : callback") Pending
            else Pending in
  let '(cb, params) := pop params in
  let p1 := if instanceof_Function cb then p0
            else reject (VErr TypeError "Missing argument : callback") p0 in
  match PromisedDatabase._db h with
  | None => (s, reject error_dbNotOpened p1)
  | Some c => engine_each c sql (unwrap_params params) cb p1 s
  end.
End Methods.
End LegacyPromisedDatabase.

(* ================================================================== *)
(** * The SQL text the specification prescribes *)
(* ================================================================== *)

(** These definitions follow the wording of the specification; the theorems
    compare them with what the helpers of [PromisedDatabase] build. *)
Module SqlText.
Import Js.

(** An absent or null value is written [NULL], a string is written
    between double quotes, any other value is written as [ToString]
    prints it. *)
Definition literal (v : value) : string :=
  match v with
  | VUndefined | VNull => "NULL"
  | VStr s => PromisedDatabase.dquote ++ s ++ PromisedDatabase.dquote
  | _ => to_string v
  end.

Definition literals (vs : list value) : string :=
  String.concat "," (map literal vs).

(** The rows the shortcut methods are documented for: an array, a plain
    object or a [Map]. *)
Definition is_row (v : value) : bool :=
  match v with
  | VArr _ | VObj _ | VMap _ => true
  | _ => false
  end.

Section Rows.
Context {R : Runtime}.

(** The value a key-value row holds under a column name: [row.get(c)]
    for a [Map], [row[c]] for an object. *)
Definition column_value (row : value) (column : string) : value :=
  match row with
  | VMap entries => map_get entries (VStr column)
  | _ =>
      match assoc column (own_props row) with
      | Some v => v
      | None => builtin_prop row column
      end
  end.

(** The values of a row of [insertMany] under the column names
    [columns]: an array is taken as it is, a key-value row gives its
    values for [columns], in the order of [columns]. *)
Definition row_values (columns : list string) (row : value) : list value :=
  match row with
  | VArr items => items
  | _ => map (column_value row) columns
  end.

Definition row_text (columns : list string) (row : value) : string :=
  "(" ++ literals (row_values columns row) ++ ")".
End Rows.

(** A row as JavaScript can build it: the keys of an object, and those of
    a [Map], are pairwise distinct. *)
Definition well_formed_row (row : value) : Prop :=
  match row with
  | VArr _ => True
  | VObj props => NoDup (map fst props)
  | VMap entries => NoDup (map fst entries)
  | _ => False
  end.

(** The values a row holds, in the row's own order. *)
Definition own_values (row : value) : list value :=
  match row with
  | VArr items => items
  | VObj props => map snd props
  | VMap entries => map snd entries
  | _ => []
  end.

Definition isnt_array (row : value) : Prop :=
  match row with VArr _ => False | _ => True end.

(** A key-value row holds [v] under the name [c]. *)
Definition row_has (row : value) (c : string) (v : value) : Prop :=
  match row with
  | VObj props => In (c, v) props
  | VMap entries => In (VStr c, v) entries
  | _ => False
  end.

(** A key-value row has nothing under the name [c]: no key of that name
    and, for an object, nothing inherited under it either. *)
Definition row_lacks {R : Runtime} (row : value) (c : string) : Prop :=
  match row with
  | VObj props => ~ In c (map fst props) /\ builtin_prop row c = VUndefined
  | VMap entries => ~ In (VStr c) (map fst entries)
  | _ => False
  end.
End SqlText.

(* ================================================================== *)
(** * A sample engine and sample user functions *)
(* ================================================================== *)

Module Sample.
Import Js Promise Host.

Definition row (id : Z) (v : string) : value :=
  VObj [("id", VNum id); ("v", VStr v)].

Definition rows : list value := [row 1 "x"; row 2 "y"].

Definition SQLITE_CANTOPEN : value :=
  VErr Error "SQLITE_CANTOPEN: unable to open database file".
Definition SQLITE_ERROR : value :=
  VErr Error "SQLITE_ERROR: no such table: t".

Definition run_result : value := VObj [("lastID", VNum 1); ("changes", VNum 1)].

(** The world counts the invocations of user functions.  With [ok] the
    engine opens connection [7] and serves two rows; without it every
    call reports an error.  Function [0] is [row => { throw row; }], every
    other function returns normally. *)
Definition host (ok : bool) : Host nat := {|
  db_new _ _ w := (w, (7%nat, if ok then VNull else SQLITE_CANTOPEN));
  db_close _ w := (w, if ok then VNull else SQLITE_ERROR);
  db_run _ _ _ w := (w, if ok then (VNull, run_result) else (SQLITE_ERROR, VUndefined));
  db_get _ _ _ w := (w, if ok then (VNull, row 1 "x") else (SQLITE_ERROR, VUndefined));
  db_all _ _ _ w := (w, if ok then (VNull, VArr rows) else (SQLITE_ERROR, VUndefined));
  db_each _ _ _ w :=
    (w, if ok then (map (fun r => (VNull, r)) rows, (VNull, VNum 2))
        else ([], (SQLITE_ERROR, VUndefined)));
  db_exec _ _ w := (w, if ok then VNull else SQLITE_ERROR);
  call_fn f arg w := (S w, if Nat.eqb f 0 then Throw arg else Normal VUndefined)
|}.

(** The engine of [host true], except that [each] reports an error on the
    second of three row events and success at completion. *)
Definition host_row_error : Host nat := {|
  db_new := db_new (Host := host true);
  db_close := db_close (Host := host true);
  db_run := db_run (Host := host true);
  db_get := db_get (Host := host true);
  db_all := db_all (Host := host true);
  db_each _ _ _ w :=
    (w, ([(VNull, row 1 "x"); (SQLITE_ERROR, VUndefined); (VNull, row 2 "y")],
         (VNull, VNum 3)));
  db_exec := db_exec (Host := host true);
  call_fn := call_fn (Host := host true)
|}.

Definition thrower : value := VFun 0 "row => { throw row; }".
Definition counter : value := VFun 1 "row => { n++; }".

(** A runtime whose values have own enumerable properties only. *)
Definition bare : Runtime := {| builtin_prop _ _ := VUndefined |}.

Definition s0 : state nat := {| world := 0%nat; trace := [] |}.
End Sample.

(* ================================================================== *)
(** * Properties of promises and of row delivery *)
(* ================================================================== *)

Import Js Promise Host Common.

Lemma resolve_settled {A} (a : A) (p : promise A) :
  p <> Pending -> resolve a p = p.
Proof. destruct p; simpl; congruence. Qed.

Lemma reject_settled {A} (e : value) (p : promise A) :
  p <> Pending -> reject e p = p.
Proof. destruct p; simpl; congruence. Qed.

Lemma settle_settled {A} (err : value) (a : A) (p : promise A) :
  p <> Pending -> settle err a p = p.
Proof.
  intros Hp. unfold settle.
  destruct (truthy err); [apply reject_settled | apply resolve_settled]; exact Hp.
Qed.

Lemma settle_error {A} (err : value) (a : A) :
  truthy err = true -> settle err a Pending = Rejected err.
Proof. intros Ht. unfold settle. rewrite Ht. reflexivity. Qed.

Lemma settle_success {A} (err : value) (a : A) :
  truthy err = false -> settle err a Pending = Fulfilled a.
Proof. intros Ht. unfold settle. rewrite Ht. reflexivity. Qed.

Lemma reject_not_pending {A} (e : value) (p : promise A) : reject e p <> Pending.
Proof. destruct p; simpl; congruence. Qed.

Lemma unwrap_params_shape (params : list value) :
  unwrap_params params = match params with
                         | [x] => x
                         | _ => VArr params
                         end.
Proof. destruct params as [|x [|y r]]; reflexivity. Qed.

Section RowDelivery.
Context {W : Type} {H : Host W}.

Lemma each_row_settled cb (s : state W) p r :
  p <> Pending -> snd (each_row cb (s, p) r) = p.
Proof.
  intros Hp. destruct r as [err row]. simpl.
  destruct (truthy err); simpl.
  - now apply reject_settled.
  - destruct (call cb row s) as [s' [v|e]]; simpl; [reflexivity|].
    now apply reject_settled.
Qed.

(** A promise that is settled stays as it is whatever rows follow. *)
Lemma deliver_rows_settled cb rows : forall (s : state W) p,
  p <> Pending -> snd (deliver_rows cb rows (s, p)) = p.
Proof.
  unfold deliver_rows.
  induction rows as [|r rows IH]; intros s p Hp; cbn [fold_left]; [reflexivity|].
  pose proof (each_row_settled cb s p r Hp) as E.
  destruct (each_row cb (s, p) r) as [s' p']. simpl in E. subst p'.
  now apply IH.
Qed.

Lemma deliver_rows_app cb rows1 rows2 (sp : state W * promise value) :
  deliver_rows cb (rows1 ++ rows2) sp
  = deliver_rows cb rows2 (deliver_rows cb rows1 sp).
Proof. unfold deliver_rows. apply fold_left_app. Qed.

(** Calling what is not a function leaves no trace. *)
Lemma call_not_function cb arg (s : state W) :
  instanceof_Function cb = false ->
  call cb arg s = (s, Throw (VErr TypeError "cb is not a function")).
Proof. destruct cb; simpl; intros E; congruence. Qed.

Lemma deliver_rows_not_function cb rows : forall (s : state W) p,
  instanceof_Function cb = false ->
  fst (deliver_rows cb rows (s, p)) = s.
Proof.
  unfold deliver_rows.
  induction rows as [|[err row] rows IH]; intros s p Hcb; simpl; [reflexivity|].
  destruct (truthy err).
  - now apply IH.
  - rewrite (call_not_function cb row s Hcb). now apply IH.
Qed.

(** The callback runs on every row delivered without an error, whatever
    happened on the rows before. *)
Lemma deliver_rows_trace f src rows : forall (s : state W) p,
  trace (fst (deliver_rows (VFun f src) rows (s, p)))
  = (trace s ++ map (Invoke f) (delivered rows))%list.
Proof.
  unfold deliver_rows, delivered.
  induction rows as [|[err row] rows IH]; intros s p; simpl.
  - now rewrite app_nil_r.
  - destruct (truthy err); simpl.
    + apply IH.
    + destruct (call_fn f row (world s)) as [w [v|e]]; rewrite IH; simpl;
        now rewrite <- app_assoc.
Qed.
End RowDelivery.

(* ================================================================== *)
(** * Parameter forwarding, handle lifecycle and usage errors *)
(* ================================================================== *)

Section Wrappers.
Context {W : Type} {H : Host W}.

(** C1.  [run], [get] and [all], in [AsyncDatabase] and in
    [PromisedDatabase] on a handle that holds a connection, call the engine
    with the SQL text and with one value for the parameters: the single
    parameter itself when exactly one was given, the array of the
    parameters, in order, when none or several were given.  The promise is
    settled from what the engine answers to that call. *)
Theorem params_forwarding (c : conn) (sql : string) (params : list value)
        (s : state W) :
  let p := match params with
           | [x] => x
           | _ => VArr params
           end in
  let a := {| AsyncDatabase.db := c |} in
  let h := {| PromisedDatabase._db := Some c |} in
  AsyncDatabase.run a sql params s
  = (issue (CallRun c sql p) (fst (db_run c sql p (world s))) s,
     settle (fst (snd (db_run c sql p (world s))))
            (snd (snd (db_run c sql p (world s)))) Pending)
  /\ AsyncDatabase.get a sql params s
     = (issue (CallGet c sql p) (fst (db_get c sql p (world s))) s,
        settle (fst (snd (db_get c sql p (world s))))
               (snd (snd (db_get c sql p (world s)))) Pending)
  /\ AsyncDatabase.all a sql params s
     = (issue (CallAll c sql p) (fst (db_all c sql p (world s))) s,
        settle (fst (snd (db_all c sql p (world s))))
               (snd (snd (db_all c sql p (world s)))) Pending)
  /\ PromisedDatabase.run h sql params s = AsyncDatabase.run a sql params s
  /\ PromisedDatabase.get h sql params s = AsyncDatabase.get a sql params s
  /\ PromisedDatabase.all h sql params s = AsyncDatabase.all a sql params s.
Proof.
  intros p a h.
  unfold PromisedDatabase.run, PromisedDatabase.get, PromisedDatabase.all,
    AsyncDatabase.run, AsyncDatabase.get, AsyncDatabase.all.
  cbn [PromisedDatabase._db AsyncDatabase.db a h].
  rewrite unwrap_params_shape. fold p.
  destruct (db_run c sql p (world s)) as [w1 [e1 x1]].
  destruct (db_get c sql p (world s)) as [w2 [e2 x2]].
  destruct (db_all c sql p (world s)) as [w3 [e3 x3]].
  repeat split.
Qed.

(** C10.  [close] on a handle that was never opened, in the deferred-open
    wrapper and in its older version: the promise is fulfilled at once with
    no value, and the state is untouched, so the engine was not called. *)
Theorem close_never_opened (s : state W) :
  PromisedDatabase.close PromisedDatabase.new s = (s, Fulfilled VUndefined)
  /\ LegacyPromisedDatabase.close PromisedDatabase.new s = (s, Fulfilled VUndefined).
Proof. split; reflexivity. Qed.

(** C3, amended.  On a [PromisedDatabase] whose [_db] is unset, [run],
    [get], [all] and [exec] reject with [error_dbNotOpened] and leave the
    state as it was: nothing reaches the engine.  So does [each] when its
    callback is a function; when it is not, [each] rejects with its
    [TypeError], which was raised first. *)
Theorem not_open_rejected (h : PromisedDatabase.t) (s : state W) :
  PromisedDatabase._db h = None ->
  (forall sql params,
      PromisedDatabase.run h sql params s
      = (s, Rejected PromisedDatabase.error_dbNotOpened))
  /\ (forall sql params,
         PromisedDatabase.get h sql params s
         = (s, Rejected PromisedDatabase.error_dbNotOpened))
  /\ (forall sql params,
         PromisedDatabase.all h sql params s
         = (s, Rejected PromisedDatabase.error_dbNotOpened))
  /\ (forall sql,
         PromisedDatabase.exec h sql s
         = (s, Rejected PromisedDatabase.error_dbNotOpened))
  /\ (forall sql params cb,
         PromisedDatabase.each h sql params cb s
         = (s, Rejected (if instanceof_Function cb
                         then PromisedDatabase.error_dbNotOpened
                         else VErr TypeError "cb must be a Function."))).
Proof.
  intros Hdb.
  unfold PromisedDatabase.run, PromisedDatabase.get, PromisedDatabase.all,
    PromisedDatabase.exec, PromisedDatabase.each.
  rewrite Hdb. repeat split.
  intros sql params cb. destruct (instanceof_Function cb); reflexivity.
Qed.

(** What [engine_each] does with a callback that is not a function, for a
    promise that is already settled. *)
Lemma engine_each_not_function c sql p cb p0 (s : state W) :
  instanceof_Function cb = false ->
  p0 <> Pending ->
  snd (engine_each c sql p cb p0 s) = p0
  /\ trace (fst (engine_each c sql p cb p0 s))
     = (trace s ++ [EngineCall (CallEach c sql p)])%list.
Proof.
  intros Hcb Hp0. unfold engine_each.
  destruct (db_each c sql p (world s)) as [w [rows [cerr count]]].
  pose proof (deliver_rows_settled cb rows (issue (CallEach c sql p) w s) p0 Hp0) as E1.
  pose proof (deliver_rows_not_function cb rows (issue (CallEach c sql p) w s) p0 Hcb) as E2.
  destruct (deliver_rows cb rows (issue (CallEach c sql p) w s, p0)) as [s' p'].
  simpl in E1, E2. subst s' p'. simpl.
  split; [now apply settle_settled | reflexivity].
Qed.

(** C4, as the code has it.  When the callback of [each] is not a function
    and the handle holds a connection, the promise is rejected with the
    [TypeError], and the statement is nevertheless handed to the engine:
    the trace gains the call of the engine's [each].  The same holds in the
    older wrapper, with the callback last among the arguments or with no
    argument at all. *)
Theorem each_bad_callback_reaches_engine (c : conn) (sql : string)
        (params cb : value) (ps : list value) (s : state W) :
  instanceof_Function cb = false ->
  let h := {| PromisedDatabase._db := Some c |} in
  (snd (PromisedDatabase.each h sql params cb s)
   = Rejected (VErr TypeError "cb must be a Function.")
   /\ trace (fst (PromisedDatabase.each h sql params cb s))
      = (trace s ++ [EngineCall (CallEach c sql params)])%list)
  /\ (snd (LegacyPromisedDatabase.each h sql (ps ++ [cb]) s)
      = Rejected (VErr TypeError "Missing argument : callback")
      /\ trace (fst (LegacyPromisedDatabase.each h sql (ps ++ [cb]) s))
         = (trace s ++ [EngineCall (CallEach c sql (unwrap_params ps))])%list)
  /\ (snd (LegacyPromisedDatabase.each h sql [] s)
      = Rejected (VErr TypeError "Missing argument : callback")
      /\ trace (fst (LegacyPromisedDatabase.each h sql [] s))
         = (trace s ++ [EngineCall (CallEach c sql (VArr []))])%list).
Proof.
  intros Hcb h.
  assert (Hlen : Nat.eqb (List.length (ps ++ [cb])) 0 = false).
  { rewrite length_app, Nat.add_comm. reflexivity. }
  split; [|split].
  - unfold PromisedDatabase.each. cbn [PromisedDatabase._db h]. rewrite Hcb.
    apply engine_each_not_function; [exact Hcb | discriminate].
  - unfold LegacyPromisedDatabase.each, pop. cbn [PromisedDatabase._db h].
    rewrite last_last, removelast_last, Hcb, Hlen. cbn [reject].
    apply engine_each_not_function; [exact Hcb | discriminate].
  - unfold LegacyPromisedDatabase.each.
    cbn [pop last removelast List.length Nat.eqb instanceof_Function reject
         PromisedDatabase._db h].
    apply engine_each_not_function; [reflexivity | discriminate].
Qed.

(** Whatever the engine will report, [open] leaves a handle whose [_db] is
    the connection its executor stored. *)
Lemma open_stores_connection (h : PromisedDatabase.t) (filename : string)
      (mode : option Z) (s : state W) :
  fst (fst (PromisedDatabase.open h filename mode s))
  = fst (fst (PromisedDatabase.open_executor filename mode s))
  /\ exists c,
      PromisedDatabase._db (fst (fst (PromisedDatabase.open h filename mode s)))
      = Some c.
Proof.
  unfold PromisedDatabase.open, PromisedDatabase.open_executor.
  destruct (db_new filename _ (world s)) as [w [c err]].
  split; [reflexivity | now exists c].
Qed.

(** C5.  When [open] of the deferred-open wrapper is rejected, the executor
    had already stored the connection in [_db] (the promise was still
    pending then, and [e] is the error the engine passed to the callback).
    From then on [run], [get], [all], [exec] and [each] do not take the
    [error_dbNotOpened] branch: each issues its call on that connection and
    settles from the engine's answer. *)
Theorem open_rejected_keeps_connection (h h1 : PromisedDatabase.t)
        (filename : string) (mode : option Z) (s s1 : state W) (e : value) :
  PromisedDatabase.open h filename mode s = (h1, s1, Rejected e) ->
  exists c,
    PromisedDatabase._db h1 = Some c
    /\ PromisedDatabase.open_executor filename mode s = (h1, s1, e)
    /\ (forall sql params s2,
           let p := unwrap_params params in
           let r := db_run c sql p (world s2) in
           PromisedDatabase.run h1 sql params s2
           = (issue (CallRun c sql p) (fst r) s2,
              settle (fst (snd r)) (snd (snd r)) Pending))
    /\ (forall sql params s2,
           let p := unwrap_params params in
           let r := db_get c sql p (world s2) in
           PromisedDatabase.get h1 sql params s2
           = (issue (CallGet c sql p) (fst r) s2,
              settle (fst (snd r)) (snd (snd r)) Pending))
    /\ (forall sql params s2,
           let p := unwrap_params params in
           let r := db_all c sql p (world s2) in
           PromisedDatabase.all h1 sql params s2
           = (issue (CallAll c sql p) (fst r) s2,
              settle (fst (snd r)) (snd (snd r)) Pending))
    /\ (forall sql s2,
           let r := db_exec c sql (world s2) in
           PromisedDatabase.exec h1 sql s2
           = (issue (CallExec c sql) (fst r) s2,
              settle (snd r) VUndefined Pending))
    /\ (forall sql params cb s2,
           PromisedDatabase.each h1 sql params cb s2
           = engine_each c sql params cb
               (if instanceof_Function cb then Pending
                else Rejected (VErr TypeError "cb must be a Function.")) s2).
Proof.
  unfold PromisedDatabase.open, PromisedDatabase.open_executor.
  destruct (db_new filename _ (world s)) as [w [c err]].
  intros Hopen. inversion Hopen as [[Hh Hs Hp]]. clear Hopen.
  exists c. split; [reflexivity|].
  split.
  { unfold settle in Hp. destruct (truthy err); cbn [reject resolve] in Hp;
      [injection Hp as ->; reflexivity | discriminate]. }
  unfold PromisedDatabase.run, PromisedDatabase.get, PromisedDatabase.all,
    PromisedDatabase.exec, PromisedDatabase.each.
  cbn [PromisedDatabase._db].
  repeat apply conj.
  - intros sql params s2.
    destruct (db_run c sql _ (world s2)) as [w2 [e2 x2]]. reflexivity.
  - intros sql params s2.
    destruct (db_get c sql _ (world s2)) as [w2 [e2 x2]]. reflexivity.
  - intros sql params s2.
    destruct (db_all c sql _ (world s2)) as [w2 [e2 x2]]. reflexivity.
  - intros sql s2.
    destruct (db_exec c sql (world s2)) as [w2 e2]. reflexivity.
  - intros sql params cb s2. destruct (instanceof_Function cb); reflexivity.
Qed.

(** C2, amended.  Let the engine deliver the row events [pre], then [row]
    without an error, then [post].  If nothing rejected the promise during
    [pre] and the callback throws [e] on [row], the promise of [each] is
    rejected with [e].  Delivery goes on: after the engine's call the
    trace holds one invocation of the callback for every row delivered
    without an error, those of [post] included.  The deferred-open wrapper
    on a handle that holds the connection does the same. *)
Theorem each_first_throw (c : conn) (sql : string) (params : value)
        (f : nat) (src : string) (s s1 s2 : state W) (w : W)
        (pre post : list (value * value)) (err row cerr count e : value) :
  db_each c sql params (world s)
  = (w, ((pre ++ (err, row) :: post)%list, (cerr, count))) ->
  deliver_rows (VFun f src) pre (issue (CallEach c sql params) w s, Pending)
  = (s1, Pending) ->
  truthy err = false ->
  call (VFun f src) row s1 = (s2, Throw e) ->
  let a := {| AsyncDatabase.db := c |} in
  let h := {| PromisedDatabase._db := Some c |} in
  snd (AsyncDatabase.each a sql params (VFun f src) s) = Rejected e
  /\ trace (fst (AsyncDatabase.each a sql params (VFun f src) s))
     = (trace s ++ EngineCall (CallEach c sql params)
          :: map (Invoke f) (delivered (pre ++ (err, row) :: post)))%list
  /\ PromisedDatabase.each h sql params (VFun f src) s
     = AsyncDatabase.each a sql params (VFun f src) s.
Proof.
  intros Hdb Hpre Herr Hcall a h.
  unfold PromisedDatabase.each, AsyncDatabase.each.
  cbn [PromisedDatabase._db AsyncDatabase.db instanceof_Function a h].
  split; [|split; [|reflexivity]].
  - unfold engine_each. rewrite Hdb.
    rewrite deliver_rows_app, Hpre.
    change (deliver_rows (VFun f src) ((err, row) :: post) (s1, Pending))
      with (deliver_rows (VFun f src) post
              (each_row (VFun f src) (s1, Pending) (err, row))).
    cbn [each_row]. rewrite Herr, Hcall. cbn [reject].
    pose proof (deliver_rows_settled (VFun f src) post s2 (Rejected e)) as E.
    destruct (deliver_rows (VFun f src) post (s2, Rejected e)) as [s3 p3].
    simpl in E |- *. rewrite E by discriminate.
    apply settle_settled. discriminate.
  - unfold engine_each. rewrite Hdb.
    pose proof (deliver_rows_trace f src (pre ++ (err, row) :: post)
                  (issue (CallEach c sql params) w s) Pending) as E.
    destruct (deliver_rows (VFun f src) (pre ++ (err, row) :: post)
                (issue (CallEach c sql params) w s, Pending)) as [s3 p3].
    simpl in E |- *. rewrite E, <- app_assoc. reflexivity.
Qed.
End Wrappers.

(* ================================================================== *)
(** * Properties of values *)
(* ================================================================== *)

(** Induction on values, with the hypothesis available on the values an
    array, an object or a [Map] contains. *)
Lemma value_ind' (P : value -> Prop)
      (Hundefined : P VUndefined)
      (Hnull : P VNull)
      (Hbool : forall b, P (VBool b))
      (Hnum : forall n, P (VNum n))
      (Hstr : forall s, P (VStr s))
      (Harr : forall items, Forall P items -> P (VArr items))
      (Hobj : forall props, Forall (fun kv => P (snd kv)) props -> P (VObj props))
      (Hmap : forall entries,
          Forall (fun kv => P (fst kv) /\ P (snd kv)) entries -> P (VMap entries))
      (Hfun : forall f src, P (VFun f src))
      (Herr : forall k m, P (VErr k m)) :
  forall v, P v.
Proof.
  refine (fix IH (v : value) : P v :=
            match v with
            | VUndefined => Hundefined
            | VNull => Hnull
            | VBool b => Hbool b
            | VNum n => Hnum n
            | VStr s => Hstr s
            | VArr items =>
                Harr items
                  ((fix all (l : list value) : Forall P l :=
                      match l with
                      | [] => Forall_nil _
                      | x :: r => Forall_cons x (IH x) (all r)
                      end) items)
            | VObj props =>
                Hobj props
                  ((fix all (l : list (string * value))
                    : Forall (fun kv => P (snd kv)) l :=
                      match l with
                      | [] => Forall_nil _
                      | kv :: r => Forall_cons kv (IH (snd kv)) (all r)
                      end) props)
            | VMap entries =>
                Hmap entries
                  ((fix all (l : list (value * value))
                    : Forall (fun kv => P (fst kv) /\ P (snd kv)) l :=
                      match l with
                      | [] => Forall_nil _
                      | kv :: r =>
                          Forall_cons kv (conj (IH (fst kv)) (IH (snd kv))) (all r)
                      end) entries)
            | VFun f src => Hfun f src
            | VErr k m => Herr k m
            end).
Qed.

Lemma error_kind_eqb_eq (a b : error_kind) : error_kind_eqb a b = true <-> a = b.
Proof. destruct a, b; simpl; split; congruence. Qed.

Lemma value_eqb_refl : forall v, value_eqb v v = true.
Proof.
  induction v using value_ind'; simpl; trivial.
  - apply Bool.eqb_reflx.
  - apply Z.eqb_refl.
  - apply String.eqb_refl.
  - induction H as [|x r Hx _ IH]; [reflexivity|]. now rewrite Hx, IH.
  - induction H as [|[k x] r Hx _ IH]; [reflexivity|].
    simpl in Hx. now rewrite String.eqb_refl, Hx, IH.
  - induction H as [|[k x] r [Hk Hx] _ IH]; [reflexivity|].
    simpl in Hk, Hx. now rewrite Hk, Hx, IH.
  - now rewrite Nat.eqb_refl, String.eqb_refl.
  - rewrite String.eqb_refl. now destruct k.
Qed.

Lemma value_eqb_sound : forall a b, value_eqb a b = true -> a = b.
Proof.
  induction a using value_ind'; intros [] E; simpl in E; try discriminate;
    try reflexivity.
  - f_equal. now apply Bool.eqb_prop.
  - f_equal. now apply Z.eqb_eq.
  - f_equal. now apply String.eqb_eq.
  - f_equal. revert items0 E.
    induction H as [|x r Hx _ IH]; intros [|y ys] E; try discriminate; [reflexivity|].
    apply andb_prop in E as [E1 E2]. f_equal; [now apply Hx | now apply IH].
  - f_equal. revert props0 E.
    induction H as [|[k x] r Hx _ IH]; intros [|[k' y] ys] E; try discriminate;
      [reflexivity|].
    apply andb_prop in E as [E E3]. apply andb_prop in E as [E1 E2].
    apply String.eqb_eq in E1. simpl in Hx. apply Hx in E2. apply IH in E3.
    congruence.
  - f_equal. revert entries0 E.
    induction H as [|[k x] r [Hk Hx] _ IH]; intros [|[k' y] ys] E; try discriminate;
      [reflexivity|].
    apply andb_prop in E as [E E3]. apply andb_prop in E as [E1 E2].
    simpl in Hk, Hx. apply Hk in E1. apply Hx in E2. apply IH in E3.
    congruence.
  - apply andb_prop in E as [E1 E2].
    apply Nat.eqb_eq in E1. apply String.eqb_eq in E2. congruence.
  - apply andb_prop in E as [E1 E2].
    apply error_kind_eqb_eq in E1. apply String.eqb_eq in E2. congruence.
Qed.

Lemma value_eqb_eq (a b : value) : value_eqb a b = true <-> a = b.
Proof.
  split; [apply value_eqb_sound | intros ->; apply value_eqb_refl].
Qed.

(* ================================================================== *)
(** * Lookups in objects and maps *)
(* ================================================================== *)

Lemma assoc_In (props : list (string * value)) (k : string) (v : value) :
  NoDup (map fst props) -> In (k, v) props -> assoc k props = Some v.
Proof.
  induction props as [|[k0 v0] r IH]; intros Hnd Hin; [contradiction|].
  simpl in Hnd. inversion Hnd as [|? ? Hnotin Hnd']; subst.
  simpl. destruct Hin as [E|Hin].
  - inversion E; subst. now rewrite String.eqb_refl.
  - destruct (String.eqb_spec k0 k) as [->|_].
    + exfalso. apply Hnotin. apply (in_map fst) in Hin. exact Hin.
    + now apply IH.
Qed.

Lemma map_get_In (entries : list (value * value)) (k v : value) :
  NoDup (map fst entries) -> In (k, v) entries -> map_get entries k = v.
Proof.
  induction entries as [|[k0 v0] r IH]; intros Hnd Hin; [contradiction|].
  simpl in Hnd. inversion Hnd as [|? ? Hnotin Hnd']; subst.
  simpl. destruct Hin as [E|Hin].
  - inversion E; subst. now rewrite value_eqb_refl.
  - destruct (value_eqb k0 k) eqn:Ek.
    + exfalso. apply value_eqb_sound in Ek. subst k0.
      apply Hnotin. apply (in_map fst) in Hin. exact Hin.
    + now apply IH.
Qed.

(** Reading a [Map] at its own keys, in order, gives its values in order. *)
Lemma map_get_own_keys (entries : list (value * value)) :
  NoDup (map fst entries) ->
  map (map_get entries) (map_keys entries) = map snd entries.
Proof.
  intros Hnd. unfold map_keys. rewrite map_map.
  apply map_ext_in. intros [k v] Hin. simpl. now apply map_get_In.
Qed.

Lemma mapM_total {A B} (f : A -> completion B) (g : A -> B) (l : list A) :
  (forall a, In a l -> f a = Normal (g a)) -> mapM f l = Normal (map g l).
Proof.
  induction l as [|a r IH]; intros Hf; [reflexivity|].
  simpl. rewrite (Hf a (or_introl eq_refl)). simpl.
  rewrite IH; [reflexivity|]. intros b Hb. apply Hf. now right.
Qed.

(** Reading an object at its own keys, in order, gives its values in order. *)
Lemma get_own_keys {R : Runtime} (props : list (string * value)) :
  NoDup (map fst props) ->
  mapM (Js.get (VObj props)) (map (fun kv => VStr (fst kv)) props)
  = Normal (map snd props).
Proof.
  intros Hnd.
  rewrite (mapM_total _ (fun k => match assoc (to_string k) props with
                                  | Some v => v
                                  | None => builtin_prop (VObj props) (to_string k)
                                  end)) by reflexivity.
  f_equal. rewrite map_map. apply map_ext_in. intros [k v] Hin. simpl.
  now rewrite (assoc_In props k v Hnd Hin).
Qed.

Lemma append_assoc (a b c : string) : ((a ++ b) ++ c = a ++ b ++ c)%string.
Proof. induction a as [|x a IH]; simpl; [reflexivity | now rewrite IH]. Qed.

Lemma join_strings (sep : string) (ks : list string) :
  Js.join sep (map VStr ks) = String.concat sep ks.
Proof. unfold Js.join. rewrite map_map. simpl. now rewrite map_id. Qed.

(* ================================================================== *)
(** * The shortcut methods *)
(* ================================================================== *)

Import SqlText.

Lemma sqlifyValue_printed (v : value) :
  join_elem to_string (PromisedDatabase.sqlifyValue v) = literal v.
Proof.
  unfold PromisedDatabase.sqlifyValue.
  destruct v as [ | |[|]| | | | | | |]; reflexivity.
Qed.

(** C6.  The values [insert], [replace] and [insertMany] serialize go
    through [sqlifyValue] and are then joined by commas; the text that comes
    out is, value by value, [NULL] for an absent or null value, the string
    between double quotes for a string, and the default textual
    representation for anything else. *)
Theorem sqlifyValue_text (vs : list value) :
  Js.join "," (map PromisedDatabase.sqlifyValue vs) = literals vs.
Proof.
  unfold Js.join, literals. rewrite map_map. f_equal.
  apply map_ext. exact sqlifyValue_printed.
Qed.

Section Shortcuts.
Context {W : Type} {H : Host W} {R : Runtime}.

Lemma sqlInsertParseObject_array (items : list value) :
  PromisedDatabase.sqlInsertParseObject (VArr items)
  = Normal (" VALUES (" ++ literals items ++ ")").
Proof.
  unfold PromisedDatabase.sqlInsertParseObject.
  now rewrite sqlifyValue_text.
Qed.

Lemma sqlInsertParseObject_object (props : list (string * value)) :
  NoDup (map fst props) ->
  PromisedDatabase.sqlInsertParseObject (VObj props)
  = Normal ("(" ++ String.concat "," (map fst props)
            ++ ") VALUES (" ++ literals (map snd props) ++ ")").
Proof.
  intros Hnd.
  unfold PromisedDatabase.sqlInsertParseObject, PromisedDatabase.getKeysValues.
  cbn [object_keys own_props bind].
  rewrite (get_own_keys props Hnd). cbn [bind fst snd].
  rewrite sqlifyValue_text.
  rewrite <- (map_map fst VStr), join_strings.
  now rewrite !append_assoc.
Qed.

Lemma sqlInsertParseObject_map (entries : list (value * value)) :
  NoDup (map fst entries) ->
  PromisedDatabase.sqlInsertParseObject (VMap entries)
  = Normal ("(" ++ Js.join "," (map fst entries)
            ++ ") VALUES (" ++ literals (map snd entries) ++ ")").
Proof.
  intros Hnd.
  unfold PromisedDatabase.sqlInsertParseObject, PromisedDatabase.getKeysValues.
  cbn [bind fst snd].
  rewrite (map_get_own_keys entries Hnd), sqlifyValue_text.
  now rewrite !append_assoc.
Qed.

(** C7.  [insert] and [replace] run, through [try_run], a statement that
    for an array has no column list and the array's values in order; for
    an object has the object's keys, in the order of the object, as the
    column list and the values of those keys in the same order; and
    likewise for a [Map] with its keys and values in insertion order. *)
Theorem insert_replace_statement (h : PromisedDatabase.t) (tableName : string)
        (s : state W) :
  (forall items,
      PromisedDatabase.insert h tableName (VArr items) s
      = PromisedDatabase.try_run h
          ("INSERT INTO " ++ tableName ++ "  VALUES ("
           ++ literals items ++ ")") s
      /\ PromisedDatabase.replace h tableName (VArr items) s
         = PromisedDatabase.try_run h
             ("REPLACE INTO " ++ tableName ++ "  VALUES ("
              ++ literals items ++ ")") s)
  /\ (forall props,
         NoDup (map fst props) ->
         PromisedDatabase.insert h tableName (VObj props) s
         = PromisedDatabase.try_run h
             ("INSERT INTO " ++ tableName
              ++ " (" ++ String.concat "," (map fst props)
              ++ ") VALUES (" ++ literals (map snd props) ++ ")") s
         /\ PromisedDatabase.replace h tableName (VObj props) s
            = PromisedDatabase.try_run h
                ("REPLACE INTO " ++ tableName
                 ++ " (" ++ String.concat "," (map fst props)
                 ++ ") VALUES (" ++ literals (map snd props) ++ ")") s)
  /\ (forall entries,
         NoDup (map fst entries) ->
         PromisedDatabase.insert h tableName (VMap entries) s
         = PromisedDatabase.try_run h
             ("INSERT INTO " ++ tableName
              ++ " (" ++ Js.join "," (map fst entries)
              ++ ") VALUES (" ++ literals (map snd entries) ++ ")") s
         /\ PromisedDatabase.replace h tableName (VMap entries) s
            = PromisedDatabase.try_run h
                ("REPLACE INTO " ++ tableName
                 ++ " (" ++ Js.join "," (map fst entries)
                 ++ ") VALUES (" ++ literals (map snd entries) ++ ")") s).
Proof.
  unfold PromisedDatabase.insert, PromisedDatabase.replace,
    PromisedDatabase.insert_sql, PromisedDatabase.replace_sql.
  split; [|split].
  - intros items. rewrite sqlInsertParseObject_array. split; reflexivity.
  - intros props Hnd. rewrite (sqlInsertParseObject_object props Hnd).
    split; reflexivity.
  - intros entries Hnd. rewrite (sqlInsertParseObject_map entries Hnd).
    split; reflexivity.
Qed.

Lemma insertMany_row_text (columns : list string) (row : value) :
  is_row row = true ->
  PromisedDatabase.insertMany_row (Some columns) row
  = Normal (row_text columns row).
Proof.
  unfold PromisedDatabase.insertMany_row, row_text, row_values.
  destruct row as [ | | | | |items|props|entries| | ]; try discriminate;
    intros _; cbn [bind option_map PromisedDatabase.getKeysValues snd].
  - now rewrite sqlifyValue_text.
  - rewrite (mapM_total _ (fun k => column_value (VObj props) (to_string k)))
      by reflexivity.
    cbn [bind snd]. now rewrite sqlifyValue_text, map_map.
  - now rewrite sqlifyValue_text, map_map.
Qed.

(** C8.  With a non-empty [columnNames], and rows that are arrays, objects
    or [Map]s, [insertMany] runs one [INSERT] whose column list is
    [columnNames] and whose tuples are, row by row: for a key-value row its
    values under the names of [columnNames], in that order; for an array
    its own values in order. *)
Theorem insertMany_statement (h : PromisedDatabase.t) (tableName : string)
        (c : string) (cs : list string) (rows : list value) (s : state W) :
  Forall (fun r => is_row r = true) rows ->
  PromisedDatabase.insertMany h tableName (Some (c :: cs)) rows s
  = PromisedDatabase.try_run h
      ("INSERT INTO " ++ tableName
       ++ " (" ++ String.concat "," (c :: cs) ++ ") VALUES "
       ++ String.concat "," (map (row_text (c :: cs)) rows)) s.
Proof.
  intros Hrows.
  unfold PromisedDatabase.insertMany, PromisedDatabase.insertMany_sql.
  rewrite (mapM_total _ (row_text (c :: cs))).
  - cbn [bind PromisedDatabase.run_built]. rewrite join_strings.
    f_equal. now rewrite !append_assoc.
  - intros r Hr. apply insertMany_row_text.
    rewrite Forall_forall in Hrows. now apply Hrows.
Qed.

Lemma try_run_rejected (h : PromisedDatabase.t) (sql : string)
      (s s' : state W) (e : value) :
  PromisedDatabase.run h sql [] s = (s', Rejected e) ->
  PromisedDatabase.try_run h sql s
  = (s', Rejected (VObj [("sql", VStr sql); ("error", e)])).
Proof. intros Hrun. unfold PromisedDatabase.try_run. now rewrite Hrun. Qed.

(** C9.  Let [sql] be the statement one of [insert], [replace],
    [insertMany] has built.  If [run] of that statement is rejected with
    [e], the method is rejected with the object [{ sql, error }] that holds
    the text [sql] and the value [e]; and on a handle that holds a
    connection [e] is the error the engine reported for that statement. *)
Theorem failure_carries_sql (h : PromisedDatabase.t) (tableName : string)
        (row : value) (columnNames : option (list string)) (rows : list value)
        (sql : string) (s s' : state W) (e : value) :
  PromisedDatabase.run h sql [] s = (s', Rejected e) ->
  (PromisedDatabase.insert_sql tableName row = Normal sql ->
   PromisedDatabase.insert h tableName row s
   = (s', Rejected (VObj [("sql", VStr sql); ("error", e)])))
  /\ (PromisedDatabase.replace_sql tableName row = Normal sql ->
      PromisedDatabase.replace h tableName row s
      = (s', Rejected (VObj [("sql", VStr sql); ("error", e)])))
  /\ (PromisedDatabase.insertMany_sql tableName columnNames rows = Normal sql ->
      PromisedDatabase.insertMany h tableName columnNames rows s
      = (s', Rejected (VObj [("sql", VStr sql); ("error", e)])))
  /\ (forall c, PromisedDatabase._db h = Some c ->
                e = fst (snd (db_run c sql (VArr []) (world s)))).
Proof.
  intros Hrun.
  unfold PromisedDatabase.insert, PromisedDatabase.replace,
    PromisedDatabase.insertMany.
  repeat apply conj.
  - intros ->. now apply try_run_rejected.
  - intros ->. now apply try_run_rejected.
  - intros ->. now apply try_run_rejected.
  - intros c Hc. unfold PromisedDatabase.run in Hrun. rewrite Hc in Hrun.
    cbn [unwrap_params List.length Nat.eqb] in Hrun.
    destruct (db_run c sql (VArr []) (world s)) as [w [err this]].
    inversion Hrun as [[Hs Hp]]. unfold settle in Hp.
    destruct (truthy err); cbn [reject resolve] in Hp;
      [injection Hp as ->; reflexivity | discriminate].
Qed.
End Shortcuts.

(* ================================================================== *)
(** * The theorems on the sample engine *)
(* ================================================================== *)

(** Rejected with the first thrown value: rows [1] and [2] are delivered,
    the callback throws its argument, the promise holds row [1]. *)
Lemma each_first_throw_witness :
  let sql := "SELECT * FROM t" in
  let s1 := issue (CallEach 7 sql VNull) 0%nat Sample.s0 in
  let s2 := {| world := 1%nat;
               trace := (trace s1 ++ [Invoke 0 (Sample.row 1 "x")])%list |} in
  call (H := Sample.host true) Sample.thrower (Sample.row 1 "x") s1
  = (s2, Throw (Sample.row 1 "x"))
  /\ snd (AsyncDatabase.each (H := Sample.host true)
            {| AsyncDatabase.db := 7%nat |} sql VNull Sample.thrower Sample.s0)
     = Rejected (Sample.row 1 "x").
Proof.
  intros sql s1 s2. split; [reflexivity|].
  exact (proj1 (each_first_throw (H := Sample.host true)
                  7%nat sql VNull 0%nat "row => { throw row; }"
                  Sample.s0 s1 s2 0%nat
                  [] [(VNull, Sample.row 2 "y")]
                  VNull (Sample.row 1 "x") VNull (VNum 2) (Sample.row 1 "x")
                  eq_refl eq_refl eq_refl eq_refl)).
Defined.

(** C2 as stated fails.  The callback throws on the first row, and is
    invoked on the second row all the same; it throws there too, and the
    promise keeps the value thrown on the first row. *)
Lemma each_goes_on_after_throw :
  let sql := "SELECT * FROM t" in
  let r1 := Sample.row 1 "x" in
  let r2 := Sample.row 2 "y" in
  let after :=
    ({| world := 2%nat;
        trace := [EngineCall (CallEach 7 sql VNull); Invoke 0 r1; Invoke 0 r2] |},
     Rejected r1) in
  (forall w, call_fn (Host := Sample.host true) 0 r1 w = (S w, Throw r1))
  /\ (forall w, call_fn (Host := Sample.host true) 0 r2 w = (S w, Throw r2))
  /\ r1 <> r2
  /\ AsyncDatabase.each (H := Sample.host true)
       {| AsyncDatabase.db := 7%nat |} sql VNull Sample.thrower Sample.s0 = after
  /\ PromisedDatabase.each (H := Sample.host true)
       {| PromisedDatabase._db := Some 7%nat |} sql VNull Sample.thrower Sample.s0
     = after.
Proof.
  repeat apply conj; try reflexivity. discriminate.
Qed.

Lemma not_open_rejected_witness :
  PromisedDatabase._db PromisedDatabase.new = None
  /\ PromisedDatabase.run (H := Sample.host true) PromisedDatabase.new
       "SELECT 1" [] Sample.s0
     = (Sample.s0, Rejected (VErr Error "The database is not open.")).
Proof.
  split; [reflexivity|].
  exact (proj1 (not_open_rejected (H := Sample.host true)
                  PromisedDatabase.new Sample.s0 eq_refl) "SELECT 1" []).
Defined.

(** C3 as stated fails twice.  On a handle that was never opened, [each]
    without a callback is rejected with the [TypeError], not with
    [error_dbNotOpened].  And a handle that was opened and then closed still
    holds its connection: [run] on it goes to the engine. *)
Lemma closed_or_no_callback_not_rejected_as_not_open :
  let H := Sample.host true in
  PromisedDatabase.each (H := H) PromisedDatabase.new
    "SELECT * FROM t" VNull VUndefined Sample.s0
  = (Sample.s0, Rejected (VErr TypeError "cb must be a Function."))
  /\ VErr TypeError "cb must be a Function." <> PromisedDatabase.error_dbNotOpened
  /\ (let '(h1, s1, opened) :=
        PromisedDatabase.open (H := H) PromisedDatabase.new "db.sqlite" None Sample.s0 in
      let '(s2, closed) := PromisedDatabase.close (H := H) h1 s1 in
      opened = Fulfilled VUndefined
      /\ closed = Fulfilled VUndefined
      /\ PromisedDatabase._db h1 = Some 7%nat
      /\ PromisedDatabase.run (H := H) h1 "SELECT 1" [] s2
         = ({| world := 0%nat;
               trace := [EngineCall (CallNew "db.sqlite" (VNum 6));
                         EngineCall (CallClose 7);
                         EngineCall (CallRun 7 "SELECT 1" (VArr []))] |},
            Fulfilled Sample.run_result)).
Proof.
  repeat apply conj; try reflexivity. discriminate.
Qed.

Lemma each_bad_callback_reaches_engine_witness :
  instanceof_Function VUndefined = false
  /\ snd (PromisedDatabase.each (H := Sample.host true)
            {| PromisedDatabase._db := Some 7%nat |}
            "SELECT * FROM t" VNull VUndefined Sample.s0)
     = Rejected (VErr TypeError "cb must be a Function.")
  /\ trace (fst (PromisedDatabase.each (H := Sample.host true)
                   {| PromisedDatabase._db := Some 7%nat |}
                   "SELECT * FROM t" VNull VUndefined Sample.s0))
     = [EngineCall (CallEach 7 "SELECT * FROM t" VNull)].
Proof.
  split; [reflexivity|].
  exact (proj1 (each_bad_callback_reaches_engine (H := Sample.host true)
                  7%nat "SELECT * FROM t" VNull VUndefined [] Sample.s0 eq_refl)).
Defined.

Lemma open_rejected_keeps_connection_witness :
  let H := Sample.host false in
  let h1 := {| PromisedDatabase._db := Some 7%nat |} in
  let s1 := issue (CallNew "db.sqlite" (VNum 6)) 0%nat Sample.s0 in
  PromisedDatabase.open (H := H) PromisedDatabase.new "db.sqlite" None Sample.s0
  = (h1, s1, Rejected Sample.SQLITE_CANTOPEN)
  /\ PromisedDatabase.run (H := H) h1 "SELECT 1" [] s1
     = (issue (CallRun 7 "SELECT 1" (VArr [])) 0%nat s1,
        Rejected Sample.SQLITE_ERROR).
Proof.
  intros H h1 s1. split; [reflexivity|].
  destruct (open_rejected_keeps_connection (H := H)
              PromisedDatabase.new h1 "db.sqlite" None Sample.s0 s1
              Sample.SQLITE_CANTOPEN eq_refl)
    as (c & Hc & _ & Hrun & _).
  injection Hc as <-. exact (Hrun "SELECT 1" [] s1).
Defined.

Lemma insert_replace_statement_witness :
  let h := {| PromisedDatabase._db := Some 7%nat |} in
  let props := [("name", VStr "Alice"); ("age", VNum 20)] in
  NoDup (map fst props)
  /\ PromisedDatabase.insert (H := Sample.host true) (R := Sample.bare)
       h "foo" (VObj props) Sample.s0
     = PromisedDatabase.try_run (H := Sample.host true) h
         ("INSERT INTO foo (name,age) VALUES ("
          ++ PromisedDatabase.dquote ++ "Alice" ++ PromisedDatabase.dquote
          ++ ",20)") Sample.s0.
Proof.
  intros h props.
  assert (Hnd : NoDup (map fst props)).
  { repeat constructor; simpl; intuition discriminate. }
  split; [exact Hnd|].
  exact (proj1 (proj1 (proj2 (insert_replace_statement
                                (H := Sample.host true) (R := Sample.bare)
                                h "foo" Sample.s0)) props Hnd)).
Defined.

Lemma insertMany_statement_witness :
  let h := {| PromisedDatabase._db := Some 7%nat |} in
  let q := PromisedDatabase.dquote in
  let rows := [VObj [("age", VNum 20); ("name", VStr "Alice")];
               VArr [VStr "Bob"; VNum 32];
               VMap [(VStr "name", VStr "Conan"); (VStr "age", VNum 53)]] in
  Forall (fun r => is_row r = true) rows
  /\ PromisedDatabase.insertMany (H := Sample.host true) (R := Sample.bare)
       h "foo" (Some ["name"; "age"]) rows Sample.s0
     = PromisedDatabase.try_run (H := Sample.host true) h
         ("INSERT INTO foo (name,age) VALUES ("
          ++ q ++ "Alice" ++ q ++ ",20),("
          ++ q ++ "Bob" ++ q ++ ",32),("
          ++ q ++ "Conan" ++ q ++ ",53)") Sample.s0.
Proof.
  intros h q rows.
  assert (Hrows : Forall (fun r => is_row r = true) rows).
  { repeat constructor. }
  split; [exact Hrows|].
  exact (insertMany_statement (H := Sample.host true) (R := Sample.bare)
           h "foo" "name" ["age"] rows Sample.s0 Hrows).
Defined.

Lemma failure_carries_sql_witness :
  let h := {| PromisedDatabase._db := Some 7%nat |} in
  let sql := "INSERT INTO foo  VALUES (1)" in
  let s' := issue (CallRun 7 sql (VArr [])) 0%nat Sample.s0 in
  PromisedDatabase.run (H := Sample.host false) h sql [] Sample.s0
  = (s', Rejected Sample.SQLITE_ERROR)
  /\ PromisedDatabase.insert (H := Sample.host false) (R := Sample.bare)
       h "foo" (VArr [VNum 1]) Sample.s0
     = (s', Rejected (VObj [("sql", VStr sql); ("error", Sample.SQLITE_ERROR)])).
Proof.
  intros h sql s'. split; [reflexivity|].
  exact (proj1 (failure_carries_sql (H := Sample.host false) (R := Sample.bare)
                  h "foo" (VArr [VNum 1]) None [] sql Sample.s0 s'
                  Sample.SQLITE_ERROR eq_refl) eq_refl).
Defined.

(* ================================================================== *)
(** * Sample runs *)
(* ================================================================== *)

(** The older [each] takes the callback from the end of its arguments and
    unwraps the single parameter that remains. *)
Example legacy_each_run :
  LegacyPromisedDatabase.each (H := Sample.host true)
    {| PromisedDatabase._db := Some 7%nat |}
    "SELECT * FROM t WHERE id > ?" [VNum 0; Sample.counter] Sample.s0
  = ({| world := 2%nat;
        trace := [EngineCall (CallEach 7 "SELECT * FROM t WHERE id > ?" (VNum 0));
                  Invoke 1 (Sample.row 1 "x");
                  Invoke 1 (Sample.row 2 "y")] |},
     Fulfilled (VNum 2)).
Proof. reflexivity. Qed.

(** An array inside a row is printed by [join] as its elements, with
    nothing for a null element. *)
Example insert_sql_nested_array :
  PromisedDatabase.insert_sql (R := Sample.bare) "foo"
    (VArr [VNum 50; VUndefined; VBool true; VArr [VNum 1; VNull; VNum 2]])
  = Normal "INSERT INTO foo  VALUES (50,NULL,true,1,,2)".
Proof. reflexivity. Qed.

(** Without column names an object row gives its values in its own key
    order. *)
Example insertMany_sql_no_columns :
  PromisedDatabase.insertMany_sql (R := Sample.bare) "foo" (Some [])
    [VObj [("age", VNum 20); ("id", VNum 1)]; VArr [VNum 2; VNum 32]]
  = Normal "INSERT INTO foo  VALUES (20,1),(2,32)".
Proof. reflexivity. Qed.

(** A column the row does not have is written [NULL]. *)
Example insertMany_sql_missing_column :
  PromisedDatabase.insertMany_sql (R := Sample.bare) "foo" (Some ["id"; "age"])
    [VObj [("age", VNum 20)]; VMap [(VStr "id", VNum 3)]]
  = Normal "INSERT INTO foo (id,age) VALUES (NULL,20),(3,NULL)".
Proof. reflexivity. Qed.

(** A row that is [null] makes the statement fail to build; the promise of
    [insert] is rejected with that exception, and [run] is not reached. *)
Example insert_null_row :
  PromisedDatabase.insert (H := Sample.host true) (R := Sample.bare)
    {| PromisedDatabase._db := Some 7%nat |} "foo" VNull Sample.s0
  = (Sample.s0,
     Rejected (VErr TypeError "Cannot convert undefined or null to object")).
Proof. reflexivity. Qed.

(** On a handle that was never opened the error [insert] wraps is
    [error_dbNotOpened]. *)
Example insert_not_open :
  PromisedDatabase.insert (H := Sample.host true) (R := Sample.bare)
    PromisedDatabase.new "foo" (VArr [VNum 1]) Sample.s0
  = (Sample.s0,
     Rejected (VObj [("sql", VStr "INSERT INTO foo  VALUES (1)");
                     ("error", PromisedDatabase.error_dbNotOpened)])).
Proof. reflexivity. Qed.

(* ================================================================== *)
(** * Further properties of the wrappers *)
(* ================================================================== *)

Section MoreWrappers.
Context {W : Type} {H : Host W}.

(** Rows without an error, handed to a callback that does not throw, leave
    the promise as it was. *)
Lemma deliver_rows_quiet f src rows : forall (s : state W) p,
  Forall (fun r => truthy (fst r) = false) rows ->
  (forall arg w, exists w' v, call_fn f arg w = (w', Normal v)) ->
  snd (deliver_rows (VFun f src) rows (s, p)) = p.
Proof.
  unfold deliver_rows.
  induction rows as [|[err row] rows IH]; intros s p Hrows Hf; [reflexivity|].
  inversion Hrows as [|? ? Herr Hrows']; subst. simpl in Herr.
  cbn [fold_left each_row call]. rewrite Herr.
  destruct (Hf row (world s)) as (w' & v & E). rewrite E.
  now apply IH.
Qed.

Lemma delivered_all rows :
  Forall (fun r => truthy (fst r) = false) rows -> delivered rows = map snd rows.
Proof.
  unfold delivered. induction 1 as [|r rows Hr _ IH]; [reflexivity|].
  simpl. rewrite Hr. simpl. now rewrite IH.
Qed.

(** X1.  [each] over rows the engine delivers without an error, with a callback
    that never throws: the callback is invoked once per row, in the order
    of delivery, and the promise is settled by the completion callback
    alone: fulfilled with the engine's count, or rejected with the error
    the engine reports at completion. *)
Theorem each_success (c : conn) (sql : string) (params : value)
        (f : nat) (src : string) (s : state W) (w : W)
        (rows : list (value * value)) (cerr count : value) :
  db_each c sql params (world s) = (w, (rows, (cerr, count))) ->
  Forall (fun r => truthy (fst r) = false) rows ->
  (forall arg w0, exists w1 v, call_fn f arg w0 = (w1, Normal v)) ->
  let r := AsyncDatabase.each {| AsyncDatabase.db := c |} sql params (VFun f src) s in
  snd r = (if truthy cerr then Rejected cerr else Fulfilled count)
  /\ trace (fst r)
     = (trace s ++ EngineCall (CallEach c sql params)
          :: map (Invoke f) (map snd rows))%list
  /\ PromisedDatabase.each {| PromisedDatabase._db := Some c |}
       sql params (VFun f src) s = r.
Proof.
  intros Hdb Hrows Hf r. subst r.
  unfold PromisedDatabase.each, AsyncDatabase.each, engine_each.
  cbn [PromisedDatabase._db AsyncDatabase.db instanceof_Function].
  rewrite Hdb.
  pose proof (deliver_rows_quiet f src rows
                (issue (CallEach c sql params) w s) Pending Hrows Hf) as E1.
  pose proof (deliver_rows_trace f src rows
                (issue (CallEach c sql params) w s) Pending) as E2.
  destruct (deliver_rows (VFun f src) rows
              (issue (CallEach c sql params) w s, Pending)) as [s' p'].
  simpl in E1, E2 |- *. subst p'.
  repeat apply conj; [| |reflexivity].
  - unfold settle. now destruct (truthy cerr).
  - rewrite E2, (delivered_all rows Hrows), <- app_assoc. reflexivity.
Qed.

Lemma delivered_app rows1 rows2 :
  delivered (rows1 ++ rows2) = (delivered rows1 ++ delivered rows2)%list.
Proof. unfold delivered. now rewrite filter_app, map_app. Qed.

(** X2.  A row the engine delivers with an error while the promise is pending
    rejects the promise of [each] with that error, whatever the completion
    callback reports; the callback is not invoked for that row, and is
    invoked for the rows delivered without an error before and after it. *)
Theorem each_row_error (c : conn) (sql : string) (params : value)
        (f : nat) (src : string) (s s1 : state W) (w : W)
        (pre post : list (value * value)) (err row cerr count : value) :
  db_each c sql params (world s)
  = (w, ((pre ++ (err, row) :: post)%list, (cerr, count))) ->
  deliver_rows (VFun f src) pre (issue (CallEach c sql params) w s, Pending)
  = (s1, Pending) ->
  truthy err = true ->
  let r := AsyncDatabase.each {| AsyncDatabase.db := c |} sql params (VFun f src) s in
  snd r = Rejected err
  /\ trace (fst r)
     = (trace s ++ EngineCall (CallEach c sql params)
          :: map (Invoke f) (delivered pre ++ delivered post))%list
  /\ PromisedDatabase.each {| PromisedDatabase._db := Some c |}
       sql params (VFun f src) s = r.
Proof.
  intros Hdb Hpre Herr r. subst r.
  unfold PromisedDatabase.each, AsyncDatabase.each.
  cbn [PromisedDatabase._db AsyncDatabase.db instanceof_Function].
  repeat apply conj; [| |reflexivity].
  - unfold engine_each. rewrite Hdb, deliver_rows_app, Hpre.
    change (deliver_rows (VFun f src) ((err, row) :: post) (s1, Pending))
      with (deliver_rows (VFun f src) post
              (each_row (VFun f src) (s1, Pending) (err, row))).
    cbn [each_row]. rewrite Herr. cbn [reject].
    pose proof (deliver_rows_settled (VFun f src) post s1 (Rejected err)) as E.
    destruct (deliver_rows (VFun f src) post (s1, Rejected err)) as [s3 p3].
    simpl in E |- *. rewrite E by discriminate.
    apply settle_settled. discriminate.
  - unfold engine_each. rewrite Hdb.
    pose proof (deliver_rows_trace f src (pre ++ (err, row) :: post)
                  (issue (CallEach c sql params) w s) Pending) as E.
    destruct (deliver_rows (VFun f src) (pre ++ (err, row) :: post)
                (issue (CallEach c sql params) w s, Pending)) as [s3 p3].
    simpl in E |- *. rewrite E, <- app_assoc. cbn [app].
    rewrite delivered_app.
    change ((err, row) :: post) with ([(err, row)] ++ post)%list.
    rewrite delivered_app. unfold delivered at 2. cbn [filter fst].
    rewrite Herr. reflexivity.
Qed.

(** X3.  The two calling conventions of [each] agree: the older, variadic [each]
    called with parameters [ps] followed by a function is the newer [each]
    called with the unwrapped parameters and that function, on every handle. *)
Theorem legacy_each_variadic (h : PromisedDatabase.t) (sql : string)
        (ps : list value) (f : nat) (src : string) (s : state W) :
  LegacyPromisedDatabase.each h sql (ps ++ [VFun f src]) s
  = PromisedDatabase.each h sql (unwrap_params ps) (VFun f src) s.
Proof.
  unfold LegacyPromisedDatabase.each, PromisedDatabase.each, pop.
  rewrite last_last, removelast_last.
  assert (Hlen : Nat.eqb (List.length (ps ++ [VFun f src])) 0 = false).
  { rewrite length_app, Nat.add_comm. reflexivity. }
  rewrite Hlen. reflexivity.
Qed.

(** X4.  On a handle that holds a connection the deferred-open wrapper does what
    [AsyncDatabase] does around that connection: [close] and [exec] agree,
    and so does [each] with a function for callback; [close] of the older
    wrapper agrees too. *)
Theorem promised_as_async (c : conn) (sql : string) (params : value)
        (f : nat) (src : string) (s : state W) :
  let a := {| AsyncDatabase.db := c |} in
  let h := {| PromisedDatabase._db := Some c |} in
  PromisedDatabase.close h s = AsyncDatabase.close a s
  /\ LegacyPromisedDatabase.close h s = AsyncDatabase.close a s
  /\ PromisedDatabase.exec h sql s = AsyncDatabase.exec a sql s
  /\ PromisedDatabase.each h sql params (VFun f src) s
     = AsyncDatabase.each a sql params (VFun f src) s.
Proof. repeat apply conj; reflexivity. Qed.

Lemma run_trace (c : conn) (sql : string) (params : list value) (s : state W) :
  trace (fst (PromisedDatabase.run {| PromisedDatabase._db := Some c |} sql params s))
  = (trace s ++ [EngineCall (CallRun c sql (unwrap_params params))])%list.
Proof.
  unfold PromisedDatabase.run. cbn [PromisedDatabase._db].
  destruct (db_run c sql _ (world s)) as [w [err this]]. reflexivity.
Qed.

Lemma close_trace (c : conn) (s : state W) :
  trace (fst (PromisedDatabase.close {| PromisedDatabase._db := Some c |} s))
  = (trace s ++ [EngineCall (CallClose c)])%list.
Proof.
  unfold PromisedDatabase.close. cbn [PromisedDatabase._db].
  destruct (db_close c (world s)) as [w err]. reflexivity.
Qed.

(** X5.  [close] does not release the handle.  After [close] on a handle that
    holds connection [c], whether the engine closed it or reported an
    error, [run] still calls the engine on [c] and settles from its answer,
    and a second [close] calls the engine's [close] again. *)
Theorem close_keeps_connection (c : conn) (sql : string) (params : list value)
        (s : state W) :
  let h := {| PromisedDatabase._db := Some c |} in
  let s1 := fst (PromisedDatabase.close h s) in
  let r := db_run c sql (unwrap_params params) (world s1) in
  trace (fst (PromisedDatabase.run h sql params s1))
  = (trace s ++ [EngineCall (CallClose c);
                 EngineCall (CallRun c sql (unwrap_params params))])%list
  /\ snd (PromisedDatabase.run h sql params s1)
     = settle (fst (snd r)) (snd (snd r)) Pending
  /\ trace (fst (PromisedDatabase.close h s1))
     = (trace s ++ [EngineCall (CallClose c); EngineCall (CallClose c)])%list.
Proof.
  intros h s1 r. subst h s1 r.
  rewrite run_trace, !close_trace, <- !app_assoc.
  repeat apply conj; try reflexivity.
  unfold PromisedDatabase.run. cbn [PromisedDatabase._db].
  destruct (db_run c sql _ _) as [w [err this]]. reflexivity.
Qed.

(** X6.  [open] of the deferred-open wrapper and the static [open] of
    [AsyncDatabase] make the same call to the engine and leave the same
    state; one is rejected exactly when the other is, with the same error;
    and when [AsyncDatabase.open] is fulfilled with a handle, the deferred-open
    handle holds the connection of that handle.  The connection the handle
    held before plays no part: [open] replaces it without closing it. *)
Theorem open_correspondence (h : PromisedDatabase.t) (filename : string)
        (m : Z) (s : state W) :
  let p := PromisedDatabase.open h filename (Some m) s in
  let a := AsyncDatabase.open filename (VNum m) s in
  snd (fst p) = fst a
  /\ trace (fst a) = (trace s ++ [EngineCall (CallNew filename (VNum m))])%list
  /\ (forall e, snd p = Rejected e <-> snd a = Rejected e)
  /\ (forall a', snd a = Fulfilled a' ->
                 snd p = Fulfilled VUndefined
                 /\ PromisedDatabase._db (fst (fst p)) = Some (AsyncDatabase.db a'))
  /\ p = PromisedDatabase.open PromisedDatabase.new filename (Some m) s.
Proof.
  intros p a. subst p a.
  unfold PromisedDatabase.open, PromisedDatabase.open_executor, AsyncDatabase.open.
  destruct (db_new filename (VNum m) (world s)) as [w [c err]].
  cbn [fst snd]. unfold settle.
  repeat apply conj; try reflexivity.
  - intros e. destruct (truthy err); cbn [reject resolve];
      split; intros E; congruence.
  - intros a'. destruct (truthy err); cbn [reject resolve]; intros E;
      [discriminate|]. injection E as <-. split; reflexivity.
Qed.

(** X7.  Passing the parameters as one array or spreading them as arguments is
    the same call, for [run], [get] and [all] of both wrappers, unless the
    array has exactly one element. *)
Theorem array_argument_as_spread (c : conn) (sql : string) (l : list value)
        (s : state W) :
  List.length l <> 1%nat ->
  let a := {| AsyncDatabase.db := c |} in
  let h := {| PromisedDatabase._db := Some c |} in
  AsyncDatabase.run a sql [VArr l] s = AsyncDatabase.run a sql l s
  /\ AsyncDatabase.get a sql [VArr l] s = AsyncDatabase.get a sql l s
  /\ AsyncDatabase.all a sql [VArr l] s = AsyncDatabase.all a sql l s
  /\ PromisedDatabase.run h sql [VArr l] s = PromisedDatabase.run h sql l s
  /\ PromisedDatabase.get h sql [VArr l] s = PromisedDatabase.get h sql l s
  /\ PromisedDatabase.all h sql [VArr l] s = PromisedDatabase.all h sql l s.
Proof.
  intros Hlen a h.
  assert (E : unwrap_params [VArr l] = unwrap_params l).
  { rewrite !unwrap_params_shape. destruct l as [|x [|y r]]; simpl in *;
      congruence. }
  unfold AsyncDatabase.run, AsyncDatabase.get, AsyncDatabase.all,
    PromisedDatabase.run, PromisedDatabase.get, PromisedDatabase.all.
  cbn [PromisedDatabase._db AsyncDatabase.db a h].
  rewrite E. repeat apply conj; reflexivity.
Qed.
End MoreWrappers.

(* ================================================================== *)
(** * Further properties of the shortcut methods *)
(* ================================================================== *)

Lemma append_empty_r (a : string) : (a ++ EmptyString = a)%string.
Proof. induction a as [|x a IH]; simpl; [reflexivity | now rewrite IH]. Qed.

Lemma assoc_missing (props : list (string * value)) (k : string) :
  ~ In k (map fst props) -> assoc k props = None.
Proof.
  induction props as [|[k0 v0] r IH]; intros Hk; [reflexivity|].
  simpl in *. destruct (String.eqb_spec k0 k) as [->|_].
  - exfalso. apply Hk. now left.
  - apply IH. intros Hin. apply Hk. now right.
Qed.

Lemma map_get_missing (entries : list (value * value)) (k : value) :
  ~ In k (map fst entries) -> map_get entries k = VUndefined.
Proof.
  induction entries as [|[k0 v0] r IH]; intros Hk; [reflexivity|].
  simpl in *. destruct (value_eqb k0 k) eqn:E.
  - exfalso. apply Hk. left. now apply value_eqb_sound.
  - apply IH. intros Hin. apply Hk. now right.
Qed.

Lemma mapM_throws {A B} (f : A -> completion B) (P : value -> Prop)
      (l : list A) (a : A) (e0 : value) :
  (forall x e, f x = Throw e -> P e) ->
  In a l -> f a = Throw e0 ->
  exists e, mapM f l = Throw e /\ P e.
Proof.
  intros HP. induction l as [|x r IH]; intros Hin Ha; [contradiction|].
  simpl. destruct (f x) as [b|e] eqn:Ex.
  - destruct Hin as [->|Hin]; [congruence|].
    destruct (IH Hin Ha) as (e & E & He). exists e. simpl. now rewrite E.
  - exists e. split; [reflexivity | now apply (HP x)].
Qed.

Section MoreShortcuts.
Context {W : Type} {H : Host W} {R : Runtime}.

Lemma get_throws_TypeError (o k : value) (e : value) :
  Js.get o k = Throw e -> is_TypeError e.
Proof.
  unfold Js.get. destruct o; intros E; try discriminate;
    injection E as <-; eexists; reflexivity.
Qed.

Lemma mapM_get_throws_TypeError (o : value) (ks : list value) (e : value) :
  mapM (Js.get o) ks = Throw e -> is_TypeError e.
Proof.
  induction ks as [|k r IH]; simpl; [discriminate|].
  destruct (Js.get o k) as [v|e'] eqn:Ek; simpl.
  - destruct (mapM (Js.get o) r) as [vs|e'']; simpl; [discriminate|].
    intros E. injection E as <-. now apply IH.
  - intros E. injection E as <-. now apply (get_throws_TypeError o k).
Qed.

Lemma getKeysValues_throws_TypeError (o : value) (keys : option (list value))
      (e : value) :
  PromisedDatabase.getKeysValues o keys = Throw e -> is_TypeError e.
Proof.
  unfold PromisedDatabase.getKeysValues.
  assert (Hgen : forall ks : completion (list value),
             (forall e', ks = Throw e' -> is_TypeError e') ->
             (keys <- ks ;; values <- mapM (Js.get o) keys ;; Normal (keys, values))
             = Throw e -> is_TypeError e).
  { intros [ks|e'] Hks; simpl.
    - destruct (mapM (Js.get o) ks) as [vs|e''] eqn:Em; simpl; [discriminate|].
      intros E. injection E as <-. now apply (mapM_get_throws_TypeError o ks).
    - intros E. injection E as <-. now apply Hks. }
  assert (Hkeys : forall e', match keys with
                             | Some ks => Normal ks
                             | None => object_keys o
                             end = Throw e' -> is_TypeError e').
  { destruct keys; [discriminate|]. unfold object_keys.
    destruct o; intros e' E; try discriminate; injection E as <-;
      eexists; reflexivity. }
  destruct o; try (apply Hgen; exact Hkeys). discriminate.
Qed.

Lemma insertMany_row_throws_TypeError (cols : option (list string))
      (row e : value) :
  PromisedDatabase.insertMany_row cols row = Throw e -> is_TypeError e.
Proof.
  unfold PromisedDatabase.insertMany_row.
  assert (Hkv : forall o k,
             (r <- (kv <- PromisedDatabase.getKeysValues o k ;; Normal (snd kv)) ;;
              Normal ("(" ++ Js.join "," (map PromisedDatabase.sqlifyValue r) ++ ")"))
             = Throw e -> is_TypeError e).
  { intros o k.
    destruct (PromisedDatabase.getKeysValues o k) as [kv|e'] eqn:E;
      cbn [bind]; [discriminate|].
    intros E'. injection E' as <-.
    now apply (getKeysValues_throws_TypeError o k). }
  destruct row; try apply Hkv. cbn [bind]. discriminate.
Qed.

Lemma insertMany_row_null (cols : option (list string)) (row : value) :
  loose_eq_undefined row = true ->
  cols <> Some [] ->
  exists e, PromisedDatabase.insertMany_row cols row = Throw e.
Proof.
  intros Hnull Hcols.
  destruct row; try discriminate; destruct cols as [[|c cs]|];
    try congruence; eexists; reflexivity.
Qed.

(** X8.  A row that is [null] or [undefined] makes the statement fail to build:
    [insert] and [replace] are rejected with the [TypeError] of
    [Object.keys], and [insertMany] with a [TypeError], whatever the other
    rows and the column names are.  The state is left as it was: nothing is
    sent to the engine, not even the rows that came before. *)
Theorem null_row_rejected (h : PromisedDatabase.t) (tableName : string)
        (columnNames : option (list string)) (rows : list value) (row : value)
        (s : state W) :
  loose_eq_undefined row = true ->
  PromisedDatabase.insert h tableName row s
  = (s, Rejected (VErr TypeError "Cannot convert undefined or null to object"))
  /\ PromisedDatabase.replace h tableName row s
     = (s, Rejected (VErr TypeError "Cannot convert undefined or null to object"))
  /\ (In row rows ->
      exists e, is_TypeError e
                /\ PromisedDatabase.insertMany h tableName columnNames rows s
                   = (s, Rejected e)).
Proof.
  intros Hnull. repeat apply conj.
  - destruct row; try discriminate; reflexivity.
  - destruct row; try discriminate; reflexivity.
  - intros Hin.
    unfold PromisedDatabase.insertMany, PromisedDatabase.insertMany_sql.
    set (cols := match columnNames with
                 | Some (c :: cs) => Some (c :: cs)
                 | _ => None
                 end).
    assert (Hcols : cols <> Some []).
    { subst cols. destruct columnNames as [[|c cs]|]; discriminate. }
    destruct (insertMany_row_null cols row Hnull Hcols) as (e0 & E0).
    destruct (mapM_throws (PromisedDatabase.insertMany_row cols) is_TypeError
                rows row e0 (insertMany_row_throws_TypeError cols) Hin E0)
      as (e & Em & He).
    exists e. split; [exact He|].
    subst cols. destruct columnNames as [[|c cs]|]; rewrite Em; reflexivity.
Qed.

Lemma insertMany_row_own_values (row : value) :
  well_formed_row row ->
  PromisedDatabase.insertMany_row None row
  = Normal ("(" ++ literals (own_values row) ++ ")").
Proof.
  unfold PromisedDatabase.insertMany_row.
  destruct row as [ | | | | |items|props|entries| | ]; try contradiction;
    intros Hwf; cbn [well_formed_row] in Hwf;
    cbn [bind option_map PromisedDatabase.getKeysValues object_keys own_props
         own_values snd].
  - now rewrite sqlifyValue_text.
  - rewrite (get_own_keys props Hwf). cbn [bind snd].
    now rewrite sqlifyValue_text.
  - rewrite (map_get_own_keys entries Hwf). now rewrite sqlifyValue_text.
Qed.

(** X9.  [insertMany] without column names, or with an empty list of them:
    the statement has no column list, and every row, array, object or
    [Map], gives its own values in its own order. *)
Theorem insertMany_no_columns (h : PromisedDatabase.t) (tableName : string)
        (columnNames : option (list string)) (rows : list value) (s : state W) :
  columnNames = None \/ columnNames = Some [] ->
  Forall well_formed_row rows ->
  PromisedDatabase.insertMany h tableName columnNames rows s
  = PromisedDatabase.try_run h
      ("INSERT INTO " ++ tableName ++ "  VALUES "
       ++ String.concat ","
            (map (fun r => "(" ++ literals (own_values r) ++ ")") rows)) s.
Proof.
  intros Hcols Hrows.
  unfold PromisedDatabase.insertMany, PromisedDatabase.insertMany_sql.
  assert (E : mapM (PromisedDatabase.insertMany_row None) rows
              = Normal (map (fun r => "(" ++ literals (own_values r) ++ ")") rows)).
  { apply mapM_total. intros r Hr. apply insertMany_row_own_values.
    rewrite Forall_forall in Hrows. now apply Hrows. }
  destruct Hcols as [-> | ->]; rewrite E; reflexivity.
Qed.

Lemma try_run_state (h : PromisedDatabase.t) (sql : string) (s : state W) :
  fst (PromisedDatabase.try_run h sql s) = fst (PromisedDatabase.run h sql [] s).
Proof.
  unfold PromisedDatabase.try_run.
  destruct (PromisedDatabase.run h sql [] s) as [s' [|v|e]]; reflexivity.
Qed.

(** X10.  [insertMany] with no row at all still runs a statement: the engine
    receives an [INSERT] that ends after [VALUES]. *)
Theorem insertMany_no_rows (c : conn) (tableName : string)
        (columnNames : option (list string)) (s : state W) :
  trace (fst (PromisedDatabase.insertMany {| PromisedDatabase._db := Some c |}
                tableName columnNames [] s))
  = (trace s
       ++ [EngineCall
             (CallRun c
                ("INSERT INTO " ++ tableName ++ " "
                 ++ match columnNames with
                    | Some (x :: r) => "(" ++ String.concat "," (x :: r) ++ ")"
                    | _ => EmptyString
                    end ++ " VALUES ")
                (VArr []))])%list.
Proof.
  unfold PromisedDatabase.insertMany, PromisedDatabase.insertMany_sql.
  destruct columnNames as [[|x r]|];
    cbn [mapM bind PromisedDatabase.run_built String.concat];
    rewrite try_run_state, run_trace; try rewrite join_strings; reflexivity.
Qed.

(** X11.  The tuple [insertMany] writes for a key-value row is determined name by
    name: under each column name it has the value the row holds under that
    name, and [undefined], hence [NULL], where the row has nothing under
    it.  The order of the row's keys and the keys that are not column names
    play no part, and an object and a [Map] with the same content give the
    same tuple. *)
Theorem insertMany_row_by_name (cols : list string) (row : value)
        (vals : list value) :
  well_formed_row row ->
  isnt_array row ->
  Forall2 (fun c v => row_has row c v \/ (row_lacks row c /\ v = VUndefined))
          cols vals ->
  PromisedDatabase.insertMany_row (Some cols) row
  = Normal ("(" ++ literals vals ++ ")").
Proof.
  intros Hwf Harr Hvals.
  rewrite insertMany_row_text.
  2:{ destruct row; try contradiction; reflexivity. }
  unfold row_text.
  assert (E : row_values cols row = vals).
  { assert (E : row_values cols row = map (column_value row) cols).
    { destruct row; try contradiction; reflexivity. }
    rewrite E. clear E.
    induction Hvals as [|c v cols vals Hcv _ IH]; [reflexivity|].
    cbn [map]. rewrite IH. f_equal.
    destruct row as [ | | | | |items|props|entries| | ]; try contradiction;
      cbn [well_formed_row row_has row_lacks column_value own_props] in *.
    - destruct Hcv as [Hin | [[Hnotin Hb] ->]].
      + now rewrite (assoc_In props c v Hwf Hin).
      + now rewrite (assoc_missing props c Hnotin).
    - destruct Hcv as [Hin | [Hnotin ->]].
      + now apply map_get_In.
      + now apply map_get_missing. }
  now rewrite E.
Qed.

(** X12.  [sqlifyValue] puts a string between double quotes and escapes nothing.
    A single string that contains [","] between double quotes is written
    exactly as two strings are: the statement [insert] builds for the one
    row is the statement it builds for the other. *)
Theorem quotes_not_escaped (tableName a b : string) :
  let q := PromisedDatabase.dquote in
  PromisedDatabase.insert_sql tableName (VArr [VStr (a ++ q ++ "," ++ q ++ b)])
  = PromisedDatabase.insert_sql tableName (VArr [VStr a; VStr b]).
Proof.
  intros q. unfold PromisedDatabase.insert_sql.
  rewrite !sqlInsertParseObject_array. cbn [bind].
  do 3 f_equal. unfold literals. cbn [map literal String.concat].
  fold q. now rewrite !append_assoc.
Qed.

(** X13.  On a handle that holds a connection, [insert], [replace] and
    [insertMany] make one call to the engine: [run] of the statement they
    built, with an empty array of parameters (the values are in the text).
    The promise is fulfilled with the engine's result when the engine
    reports no error, and rejected with [{ sql, error }] when it does. *)
Theorem shortcut_runs_built_statement (c : conn) (tableName : string)
        (row : value) (columnNames : option (list string)) (rows : list value)
        (sql : string) (s : state W) :
  let h := {| PromisedDatabase._db := Some c |} in
  let r := db_run c sql (VArr []) (world s) in
  let outcome :=
    (issue (CallRun c sql (VArr [])) (fst r) s,
     if truthy (fst (snd r))
     then Rejected (VObj [("sql", VStr sql); ("error", fst (snd r))])
     else Fulfilled (snd (snd r))) in
  (PromisedDatabase.insert_sql tableName row = Normal sql ->
   PromisedDatabase.insert h tableName row s = outcome)
  /\ (PromisedDatabase.replace_sql tableName row = Normal sql ->
      PromisedDatabase.replace h tableName row s = outcome)
  /\ (PromisedDatabase.insertMany_sql tableName columnNames rows = Normal sql ->
      PromisedDatabase.insertMany h tableName columnNames rows s = outcome).
Proof.
  intros h r outcome.
  assert (E : PromisedDatabase.try_run h sql s = outcome).
  { subst h r outcome.
    unfold PromisedDatabase.try_run, PromisedDatabase.run, settle.
    cbn [PromisedDatabase._db unwrap_params List.length Nat.eqb].
    destruct (db_run c sql (VArr []) (world s)) as [w [err this]].
    cbn [fst snd]. destruct (truthy err); reflexivity. }
  unfold PromisedDatabase.insert, PromisedDatabase.replace,
    PromisedDatabase.insertMany.
  repeat apply conj; intros ->; exact E.
Qed.


Lemma mapM_get_total (o : value) (ks : list value) :
  loose_eq_undefined o = false ->
  exists vs, mapM (Js.get o) ks = Normal vs /\ List.length vs = List.length ks.
Proof.
  intros Ho. induction ks as [|k r (vs & E & Hlen)].
  - exists []. split; reflexivity.
  - assert (Hk : exists v, Js.get o k = Normal v).
    { destruct o; try discriminate; eexists; reflexivity. }
    destruct Hk as (v & Ek). exists (v :: vs). simpl.
    rewrite Ek. simpl. rewrite E. simpl. now rewrite Hlen.
Qed.

(** X15.  [getKeysValues] with the keys given, on anything but [null] and
    [undefined]: it does not throw, it hands the keys back as they are, and
    it returns one value per key.  So every key-value row of [insertMany]
    gives a tuple with as many values as there are column names. *)
Theorem getKeysValues_given_keys (o : value) (ks : list value) :
  loose_eq_undefined o = false ->
  exists vs,
    PromisedDatabase.getKeysValues o (Some ks) = Normal (ks, vs)
    /\ List.length vs = List.length ks.
Proof.
  intros Ho.
  destruct (mapM_get_total o ks Ho) as (vs & E & Hlen).
  unfold PromisedDatabase.getKeysValues.
  destruct o; try discriminate;
    try (exists vs; cbn [bind]; rewrite E; split; [reflexivity | exact Hlen]).
  eexists. split; [reflexivity|]. now rewrite length_map.
Qed.

Lemma settle_not_pending {A} (err : value) (a : A) (p : promise A) :
  settle err a p <> Pending.
Proof. unfold settle. destruct (truthy err), p; simpl; discriminate. Qed.

Lemma engine_each_not_pending c sql p cb p0 (s : state W) :
  snd (engine_each c sql p cb p0 s) <> Pending.
Proof.
  unfold engine_each.
  destruct (db_each c sql p (world s)) as [w [rows [cerr count]]].
  destruct (deliver_rows cb rows _) as [s' p']. apply settle_not_pending.
Qed.

Lemma run_not_pending (h : PromisedDatabase.t) sql params (s : state W) :
  snd (PromisedDatabase.run h sql params s) <> Pending.
Proof.
  unfold PromisedDatabase.run. destruct (PromisedDatabase._db h) as [c|];
    [|discriminate].
  destruct (db_run c sql _ (world s)) as [w [err this]].
  apply settle_not_pending.
Qed.

Lemma run_built_not_pending (h : PromisedDatabase.t) (sql : completion string)
      (s : state W) :
  snd (PromisedDatabase.run_built h sql s) <> Pending.
Proof.
  destruct sql as [sql|e]; [|discriminate].
  unfold PromisedDatabase.run_built, PromisedDatabase.try_run.
  pose proof (run_not_pending h sql [] s) as Hrun.
  destruct (PromisedDatabase.run h sql [] s) as [s' [|v|e]]; simpl in *;
    congruence.
Qed.

(** X16.  No method leaves its promise pending once the engine has answered:
    whatever the handle, the arguments, the callback and the engine's
    answer, the promise each method of the three wrappers returns is
    fulfilled or rejected. *)
Theorem promises_settle (a : AsyncDatabase.t) (h : PromisedDatabase.t)
        (filename sql tableName : string) (mode : value) (m : option Z)
        (params : list value) (p cb row : value) (b : bool) (ob : option bool)
        (cols : list string) (columnNames : option (list string))
        (rows : list value) (s : state W) :
  (snd (AsyncDatabase.open filename mode s) <> Pending
   /\ snd (AsyncDatabase.close a s) <> Pending
   /\ snd (AsyncDatabase.run a sql params s) <> Pending
   /\ snd (AsyncDatabase.get a sql params s) <> Pending
   /\ snd (AsyncDatabase.all a sql params s) <> Pending
   /\ snd (AsyncDatabase.each a sql p cb s) <> Pending
   /\ snd (AsyncDatabase.exec a sql s) <> Pending)
  /\ (snd (PromisedDatabase.open h filename m s) <> Pending
      /\ snd (PromisedDatabase.close h s) <> Pending
      /\ snd (PromisedDatabase.run h sql params s) <> Pending
      /\ snd (PromisedDatabase.get h sql params s) <> Pending
      /\ snd (PromisedDatabase.all h sql params s) <> Pending
      /\ snd (PromisedDatabase.each h sql p cb s) <> Pending
      /\ snd (PromisedDatabase.exec h sql s) <> Pending)
  /\ (snd (PromisedDatabase.createTable h tableName b cols s) <> Pending
      /\ snd (PromisedDatabase.dropTable h tableName ob s) <> Pending
      /\ snd (PromisedDatabase.insert h tableName row s) <> Pending
      /\ snd (PromisedDatabase.replace h tableName row s) <> Pending
      /\ snd (PromisedDatabase.insertMany h tableName columnNames rows s)
         <> Pending)
  /\ (snd (LegacyPromisedDatabase.close h s) <> Pending
      /\ snd (LegacyPromisedDatabase.each h sql params s) <> Pending).
Proof.
  repeat apply conj.
  - unfold AsyncDatabase.open.
    destruct (db_new filename mode (world s)) as [w [c err]].
    apply settle_not_pending.
  - unfold AsyncDatabase.close.
    destruct (db_close _ (world s)) as [w err]. apply settle_not_pending.
  - unfold AsyncDatabase.run.
    destruct (db_run _ sql _ (world s)) as [w [err x]]. apply settle_not_pending.
  - unfold AsyncDatabase.get.
    destruct (db_get _ sql _ (world s)) as [w [err x]]. apply settle_not_pending.
  - unfold AsyncDatabase.all.
    destruct (db_all _ sql _ (world s)) as [w [err x]]. apply settle_not_pending.
  - apply engine_each_not_pending.
  - unfold AsyncDatabase.exec.
    destruct (db_exec _ sql (world s)) as [w err]. apply settle_not_pending.
  - unfold PromisedDatabase.open, PromisedDatabase.open_executor.
    destruct (db_new filename _ (world s)) as [w [c err]].
    apply settle_not_pending.
  - unfold PromisedDatabase.close. destruct (PromisedDatabase._db h) as [c|];
      [|discriminate].
    destruct (db_close c (world s)) as [w err]. apply settle_not_pending.
  - apply run_not_pending.
  - unfold PromisedDatabase.get. destruct (PromisedDatabase._db h) as [c|];
      [|discriminate].
    destruct (db_get c sql _ (world s)) as [w [err x]]. apply settle_not_pending.
  - unfold PromisedDatabase.all. destruct (PromisedDatabase._db h) as [c|];
      [|discriminate].
    destruct (db_all c sql _ (world s)) as [w [err x]]. apply settle_not_pending.
  - unfold PromisedDatabase.each. destruct (PromisedDatabase._db h) as [c|].
    + apply engine_each_not_pending.
    + apply reject_not_pending.
  - unfold PromisedDatabase.exec. destruct (PromisedDatabase._db h) as [c|];
      [|discriminate].
    destruct (db_exec c sql (world s)) as [w err]. apply settle_not_pending.
  - apply run_not_pending.
  - apply run_not_pending.
  - apply run_built_not_pending.
  - apply run_built_not_pending.
  - apply run_built_not_pending.
  - unfold LegacyPromisedDatabase.close.
    destruct (PromisedDatabase._db h) as [c|]; [|discriminate].
    destruct (db_close c (world s)) as [w err]. apply settle_not_pending.
  - unfold LegacyPromisedDatabase.each. destruct (pop params) as [cb' ps].
    destruct (PromisedDatabase._db h) as [c|].
    + apply engine_each_not_pending.
    + apply reject_not_pending.
Qed.

Lemma own_keys_values (props : list (string * value)) :
  NoDup (map fst props) ->
  map (column_value (VObj props)) (map fst props) = map snd props.
Proof.
  intros Hnd. rewrite map_map. apply map_ext_in. intros [k v] Hin.
  unfold column_value. cbn [own_props fst snd].
  now rewrite (assoc_In props k v Hnd Hin).
Qed.

(** X17.  [insertMany] with a single row is [insert] of that row: for an array
    when no column names are given, and for an object when the column names
    are the object's own keys in the object's order. *)
Theorem insertMany_single_row (h : PromisedDatabase.t) (tableName : string)
        (items : list value) (k : string) (v : value)
        (props : list (string * value)) (s : state W) :
  NoDup (map fst ((k, v) :: props)) ->
  PromisedDatabase.insertMany h tableName None [VArr items] s
  = PromisedDatabase.insert h tableName (VArr items) s
  /\ PromisedDatabase.insertMany h tableName (Some (map fst ((k, v) :: props)))
       [VObj ((k, v) :: props)] s
     = PromisedDatabase.insert h tableName (VObj ((k, v) :: props)) s.
Proof.
  intros Hnd.
  unfold PromisedDatabase.insertMany, PromisedDatabase.insert,
    PromisedDatabase.insertMany_sql, PromisedDatabase.insert_sql.
  split.
  - rewrite sqlInsertParseObject_array.
    cbn [mapM bind PromisedDatabase.insertMany_row String.concat].
    rewrite sqlifyValue_text. reflexivity.
  - rewrite (sqlInsertParseObject_object _ Hnd).
    change (map fst ((k, v) :: props)) with (k :: map fst props).
    cbn [mapM bind].
    rewrite join_strings.
    rewrite (insertMany_row_text (k :: map fst props)
               (VObj ((k, v) :: props)) eq_refl).
    unfold row_text, row_values.
    change (k :: map fst props) with (map fst ((k, v) :: props)).
    rewrite (own_keys_values _ Hnd).
    cbn [bind String.concat].
    f_equal. f_equal. now rewrite !append_assoc.
Qed.
End MoreShortcuts.

(* ================================================================== *)
(** * The further properties on the sample engine *)
(* ================================================================== *)

Lemma each_success_witness :
  let sql := "SELECT * FROM t" in
  Forall (fun r => truthy (fst r) = false)
         (map (fun r => (VNull, r)) Sample.rows)
  /\ snd (AsyncDatabase.each (H := Sample.host true)
            {| AsyncDatabase.db := 7%nat |} sql VNull Sample.counter Sample.s0)
     = Fulfilled (VNum 2)
  /\ trace (fst (AsyncDatabase.each (H := Sample.host true)
                   {| AsyncDatabase.db := 7%nat |} sql VNull Sample.counter
                   Sample.s0))
     = [EngineCall (CallEach 7 sql VNull);
        Invoke 1 (Sample.row 1 "x"); Invoke 1 (Sample.row 2 "y")].
Proof.
  intros sql.
  assert (Hrows : Forall (fun r => truthy (fst r) = false)
                         (map (fun r => (VNull, r)) Sample.rows)).
  { repeat constructor. }
  split; [exact Hrows|].
  destruct (each_success (H := Sample.host true) 7%nat sql VNull 1%nat
              "row => { n++; }" Sample.s0 0%nat
              (map (fun r => (VNull, r)) Sample.rows) VNull (VNum 2)
              eq_refl Hrows
              (fun arg w0 => ex_intro _ (S w0) (ex_intro _ VUndefined eq_refl)))
    as (Hp & Ht & _).
  split; [exact Hp | exact Ht].
Defined.

Lemma each_row_error_witness :
  let sql := "SELECT * FROM t" in
  truthy Sample.SQLITE_ERROR = true
  /\ snd (AsyncDatabase.each (H := Sample.host_row_error)
            {| AsyncDatabase.db := 7%nat |} sql VNull Sample.counter Sample.s0)
     = Rejected Sample.SQLITE_ERROR
  /\ trace (fst (AsyncDatabase.each (H := Sample.host_row_error)
                   {| AsyncDatabase.db := 7%nat |} sql VNull Sample.counter
                   Sample.s0))
     = [EngineCall (CallEach 7 sql VNull);
        Invoke 1 (Sample.row 1 "x"); Invoke 1 (Sample.row 2 "y")].
Proof.
  intros sql. split; [reflexivity|].
  destruct (each_row_error (H := Sample.host_row_error) 7%nat sql VNull 1%nat
              "row => { n++; }" Sample.s0
              {| world := 1%nat;
                 trace := [EngineCall (CallEach 7 sql VNull);
                           Invoke 1 (Sample.row 1 "x")] |}
              0%nat
              [(VNull, Sample.row 1 "x")] [(VNull, Sample.row 2 "y")]
              Sample.SQLITE_ERROR VUndefined VNull (VNum 3)
              eq_refl eq_refl eq_refl)
    as (Hp & Ht & _).
  split; [exact Hp | exact Ht].
Defined.

Lemma array_argument_as_spread_witness :
  let l := [VStr "Value of a"; VStr "Value of b"] in
  let a := {| AsyncDatabase.db := 7%nat |} in
  List.length l <> 1%nat
  /\ AsyncDatabase.run (H := Sample.host true) a
       "INSERT INTO foo (a, b) VALUES (?, ?)" [VArr l] Sample.s0
     = AsyncDatabase.run (H := Sample.host true) a
         "INSERT INTO foo (a, b) VALUES (?, ?)" l Sample.s0.
Proof.
  intros l a.
  assert (Hlen : List.length l <> 1%nat) by (simpl; lia).
  split; [exact Hlen|].
  exact (proj1 (array_argument_as_spread (H := Sample.host true) 7%nat
                  "INSERT INTO foo (a, b) VALUES (?, ?)" l Sample.s0 Hlen)).
Defined.

Lemma null_row_rejected_witness :
  loose_eq_undefined VNull = true
  /\ PromisedDatabase.insert (H := Sample.host true) (R := Sample.bare)
       {| PromisedDatabase._db := Some 7%nat |} "foo" VNull Sample.s0
     = (Sample.s0,
        Rejected (VErr TypeError "Cannot convert undefined or null to object")).
Proof.
  split; [reflexivity|].
  exact (proj1 (null_row_rejected (H := Sample.host true) (R := Sample.bare)
                  {| PromisedDatabase._db := Some 7%nat |} "foo" None []
                  VNull Sample.s0 eq_refl)).
Defined.

Lemma insertMany_no_columns_witness :
  let h := {| PromisedDatabase._db := Some 7%nat |} in
  let rows := [VObj [("age", VNum 20); ("id", VNum 1)]; VArr [VNum 2; VNum 32]] in
  Forall well_formed_row rows
  /\ PromisedDatabase.insertMany (H := Sample.host true) (R := Sample.bare)
       h "foo" (Some []) rows Sample.s0
     = PromisedDatabase.try_run (H := Sample.host true) h
         "INSERT INTO foo  VALUES (20,1),(2,32)" Sample.s0.
Proof.
  intros h rows.
  assert (Hrows : Forall well_formed_row rows).
  { repeat constructor; simpl; intuition discriminate. }
  split; [exact Hrows|].
  exact (insertMany_no_columns (H := Sample.host true) (R := Sample.bare)
           h "foo" (Some []) rows Sample.s0 (or_intror eq_refl) Hrows).
Defined.

Lemma insertMany_row_by_name_witness :
  let row := VObj [("extra", VBool true); ("age", VNum 20); ("id", VNum 1)] in
  well_formed_row row
  /\ PromisedDatabase.insertMany_row (R := Sample.bare)
       (Some ["id"; "name"; "age"]) row
     = Normal "(1,NULL,20)".
Proof.
  intros row.
  assert (Hwf : well_formed_row row).
  { repeat constructor; simpl; intuition discriminate. }
  split; [exact Hwf|].
  apply (insertMany_row_by_name (R := Sample.bare) ["id"; "name"; "age"] row
           [VNum 1; VUndefined; VNum 20] Hwf I).
  apply Forall2_cons; [|apply Forall2_cons; [|apply Forall2_cons;
                                               [|apply Forall2_nil]]]; simpl.
  - left. intuition.
  - right. repeat split. intuition discriminate.
  - left. intuition.
Defined.

Lemma shortcut_runs_built_statement_witness :
  let h := {| PromisedDatabase._db := Some 7%nat |} in
  let sql := "INSERT INTO foo  VALUES (1)" in
  PromisedDatabase.insert_sql (R := Sample.bare) "foo" (VArr [VNum 1]) = Normal sql
  /\ PromisedDatabase.insert (H := Sample.host true) (R := Sample.bare)
       h "foo" (VArr [VNum 1]) Sample.s0
     = (issue (CallRun 7 sql (VArr [])) 0%nat Sample.s0,
        Fulfilled Sample.run_result).
Proof.
  intros h sql. split; [reflexivity|].
  exact (proj1 (shortcut_runs_built_statement
                  (H := Sample.host true) (R := Sample.bare)
                  7%nat "foo" (VArr [VNum 1]) None [] sql Sample.s0) eq_refl).
Defined.

Lemma getKeysValues_given_keys_witness :
  loose_eq_undefined (VNum 5) = false
  /\ exists vs,
      PromisedDatabase.getKeysValues (R := Sample.bare) (VNum 5)
        (Some [VStr "id"; VStr "age"])
      = Normal ([VStr "id"; VStr "age"], vs)
      /\ List.length vs = 2%nat.
Proof.
  split; [reflexivity|].
  exact (getKeysValues_given_keys (R := Sample.bare) (VNum 5)
           [VStr "id"; VStr "age"] eq_refl).
Defined.

Lemma insertMany_single_row_witness :
  let h := {| PromisedDatabase._db := Some 7%nat |} in
  let props := [("name", VStr "Alice"); ("age", VNum 20)] in
  NoDup (map fst props)
  /\ PromisedDatabase.insertMany (H := Sample.host true) (R := Sample.bare)
       h "foo" (Some ["name"; "age"]) [VObj props] Sample.s0
     = PromisedDatabase.insert (H := Sample.host true) (R := Sample.bare)
         h "foo" (VObj props) Sample.s0.
Proof.
  intros h props.
  assert (Hnd : NoDup (map fst props)).
  { repeat constructor; simpl; intuition discriminate. }
  split; [exact Hnd|].
  exact (proj2 (insertMany_single_row (H := Sample.host true) (R := Sample.bare)
                  h "foo" [] "name" (VStr "Alice") [("age", VNum 20)]
                  Sample.s0 Hnd)).
Defined.
